(** * LotusVale terrain: height field, height queries, spawn finder, capsule collider

    A shallow embedding of the terrain core of [main.cpp]: [fractalNoise],
    [generateHeightMap], [generateVertices], [getInterpolatedHeight],
    [getHeight], [CapsuleCollider] and [findSpawnPoint].

    The C++ code computes with [float] and [int].  The embedding is written
    once over an interface [FloatOps] of the arithmetic the code uses, and
    is instantiated twice:
    - [real_ops]: exact real arithmetic ([R]), the arithmetic in which the
      numeric properties of the terrain are stated (no rounding, no
      infinities, no NaN);
    - [binary32_ops]: IEEE-754 single precision on [spec_float], which runs
      (without [sin] and [cos], which the C library provides).

    Results proved inside [Section Generic] hold for every instance, hence
    for the machine arithmetic as well; results that need the laws of
    arithmetic are proved for [real_ops].

    Undefined behaviour of the C++ code (a vector indexed out of range, a
    [float] converted to an [int] that cannot hold it, signed overflow) is
    the result [None]. *)

From Stdlib Require Import ZArith QArith Reals Lra Lia.
From Stdlib Require Import Floats.SpecFloat.
From stdpp Require Import base option list.

(** ** The arithmetic interface *)

Class FloatOps (F : Type) : Type := {
  fadd : F -> F -> F;
  fsub : F -> F -> F;
  fmul : F -> F -> F;
  fdiv : F -> F -> F;
  fle : F -> F -> bool;          (* a <= b *)
  flt : F -> F -> bool;          (* a < b *)
  fabs : F -> F;                 (* std::abs *)
  of_int : Z -> F;               (* conversion int -> float *)
  to_int : F -> option Z;        (* static_cast<int>: truncation, None when
                                    the value does not fit an int *)
  lit : Q -> F                   (* a decimal literal such as 0.5f *)
}.

(** [sin] and [cos] of the C library, which only [fractalNoise] calls. *)
Class TrigOps (F : Type) : Type := {
  fsin : F -> F;
  fcos : F -> F
}.

Declare Scope fl_scope.
Delimit Scope fl_scope with fl.
Notation "x + y" := (fadd x y) : fl_scope.
Notation "x - y" := (fsub x y) : fl_scope.
Notation "x * y" := (fmul x y) : fl_scope.
Notation "x / y" := (fdiv x y) : fl_scope.
Notation "x <=? y" := (fle x y) : fl_scope.
Notation "x <? y" := (flt x y) : fl_scope.

(** ** [int] and [std::vector] *)

Definition INT_MIN : Z := - 2 ^ 31.
Definition INT_MAX : Z := 2 ^ 31 - 1.

Definition in_int (n : Z) : bool := (INT_MIN <=? n)%Z && (n <=? INT_MAX)%Z.

(** [a + b] on [int]; signed overflow is undefined. *)
Definition int_add (a b : Z) : option Z :=
  if in_int (a + b) then Some (a + b)%Z else None.

(** [std::clamp(v, lo, hi)]. *)
Definition clamp (v lo hi : Z) : Z :=
  if (v <? lo)%Z then lo else if (hi <? v)%Z then hi else v.

(** [v[i]] read; undefined when [i] is not an index of [v]. *)
Definition vget {A} (v : list A) (i : Z) : option A :=
  if (i <? 0)%Z then None else v !! Z.to_nat i.

(** [v[i] = x]; undefined when [i] is not an index of [v]. *)
Definition vset {A} (v : list A) (i : Z) (x : A) : option (list A) :=
  if (0 <=? i)%Z && (i <? Z.of_nat (length v))%Z
  then Some (<[Z.to_nat i := x]> v) else None.

(** [v.resize(n)] with an [int] argument: a negative [n] converts to a huge
    [size_t] and the call throws. *)
Definition vresize {A} (n : Z) (d : A) (v : list A) : option (list A) :=
  if (n <? 0)%Z then None else Some (resize (Z.to_nat n) d v).

(** [for (int i = lo; i < hi; ++i) body], on a state [S]. *)
Fixpoint for_from {S} (n : nat) (i : Z) (body : Z -> S -> S) (s : S) : S :=
  match n with
  | O => s
  | S n' => for_from n' (i + 1) body (body i s)
  end.

Definition for_range {S} (lo hi : Z) (body : Z -> S -> S) (s : S) : S :=
  for_from (Z.to_nat (hi - lo)) lo body s.

(** The same loop when the body can be undefined. *)
Fixpoint for_fromM {S} (n : nat) (i : Z) (body : Z -> S -> option S) (s : S)
  : option S :=
  match n with
  | O => Some s
  | S n' => s' ← body i s; for_fromM n' (i + 1) body s'
  end.

Definition for_rangeM {S} (lo hi : Z) (body : Z -> S -> option S) (s : S)
  : option S :=
  for_fromM (Z.to_nat (hi - lo)) lo body s.

(** The same loop when the body can [return] from the enclosing function:
    [Some (Some v)] is a return of [v], [Some None] is falling out of the
    loop. *)
Fixpoint scan_from {A} (n : nat) (i : Z) (body : Z -> option (option A))
  : option (option A) :=
  match n with
  | O => Some None
  | S n' =>
      r ← body i;
      match r with
      | Some v => Some (Some v)
      | None => scan_from n' (i + 1) body
      end
  end.

Definition scan_range {A} (lo hi : Z) (body : Z -> option (option A))
  : option (option A) :=
  scan_from (Z.to_nat (hi - lo)) lo body.

Definition GRID_W : Z := 256.
Definition GRID_H : Z := 256.

(** ** The program *)

Section Program.
Context {F : Type} `{FloatOps F} `{TrigOps F}.
Local Open Scope fl_scope.

(** *** [fractalNoise] *)

Record noise_acc : Type := NoiseAcc {
  total : F;
  frequency : F;
  amplitude : F;
  maxValue : F
}.

(** One turn of the loop of [fractalNoise]. *)
Definition noise_step (x y persistence : F) (a : noise_acc) : noise_acc :=
  let total' :=
    total a
    + amplitude a
      * (lit 0.5 * fsin (x * frequency a) * fcos (y * frequency a)
         + lit 0.5) in
  let maxValue' := maxValue a + amplitude a in
  let amplitude' := amplitude a * persistence in
  let frequency' := frequency a * lit 2 in
  NoiseAcc total' frequency' amplitude' maxValue'.

Definition noise_init : noise_acc :=
  NoiseAcc (lit 0) (lit 0.5) (lit 64) (lit 0).

Definition noise_loop (x y : F) (octaves : Z) (persistence : F) : noise_acc :=
  for_range 0 octaves (fun _ => noise_step x y persistence) noise_init.

Definition fractalNoise (x y : F) (octaves : Z) (persistence : F) : F :=
  let a := noise_loop x y octaves persistence in
  total a / maxValue a.

(** The default arguments [octaves = 6], [persistence = 0.7f]. *)
Definition fractalNoise2 (x y : F) : F := fractalNoise x y 6 (lit 0.7).

(** *** [generateHeightMap] *)

(** [heightMap[y].resize(w)]. *)
Definition resize_row (y w : Z) (heightMap : list (list F))
  : option (list (list F)) :=
  row ← vget heightMap y;
  row' ← vresize w (lit 0) row;
  vset heightMap y row'.

(** [heightMap[y][x] = v]. *)
Definition set_cell (y x : Z) (v : F) (heightMap : list (list F))
  : option (list (list F)) :=
  row ← vget heightMap y;
  row' ← vset row x v;
  vset heightMap y row'.

(** [heightMap[y][x]]. *)
Definition cell (heightMap : list (list F)) (y x : Z) : option F :=
  row ← vget heightMap y;
  vget row x.

(** The global [heightMap] is passed in and returned. *)
Definition generateHeightMap (w h : Z) (scale : F) (heightMap : list (list F))
  : option (list (list F)) :=
  heightMap ← vresize h [] heightMap;
  for_rangeM 0 h (fun y heightMap =>
    heightMap ← resize_row y w heightMap;
    for_rangeM 0 w (fun x heightMap =>
      let hNoise := fractalNoise2 (of_int x * scale) (of_int y * scale) in
      let height := (hNoise - lit 0.5) * lit 50 in
      set_cell y x height heightMap) heightMap) heightMap.

(** *** [generateVertices] *)

Definition vertex_spacing : F := lit 10.

Definition generateVertices (verts : list F) (w h : Z) (scale : F) : list F :=
  let spacing := vertex_spacing in
  for_range 0 h (fun y verts =>
    for_range 0 w (fun x verts =>
      let hNoise := fractalNoise2 (of_int x * scale) (of_int y * scale) in
      let height := (hNoise - lit 0.5) * lit 50 in
      let verts := verts ++ [of_int x * spacing] in
      let verts := verts ++ [height] in
      verts ++ [of_int y * spacing]) verts) verts.

(** *** [getInterpolatedHeight] *)

(** Modelled from the spec: [glm::mix] belongs to the GLM library, which is
    not part of the repository; it is the linear blend of the bilinear
    query, [x * (1 - a) + y * a]. *)
Definition mix (x y a : F) : F := x * (lit 1 - a) + y * a.

Definition getInterpolatedHeight (heightMap : list (list F)) (x z : F)
  : option F :=
  x0 ← to_int (x / lit 10);
  z0 ← to_int (z / lit 10);
  x1 ← int_add x0 1;
  z1 ← int_add z0 1;
  let tx := (x / lit 10) - of_int x0 in
  let tz := (z / lit 10) - of_int z0 in
  let x0 := clamp x0 0 (GRID_W - 1) in
  let x1 := clamp x1 0 (GRID_W - 1) in
  let z0 := clamp z0 0 (GRID_H - 1) in
  let z1 := clamp z1 0 (GRID_H - 1) in
  h00 ← cell heightMap z0 x0;
  h10 ← cell heightMap z0 x1;
  h01 ← cell heightMap z1 x0;
  h11 ← cell heightMap z1 x1;
  let hx0 := mix h00 h10 tx in
  let hx1 := mix h01 h11 tx in
  Some (mix hx0 hx1 tz).

(** *** [getHeight] *)

Definition query_spacing : F := lit 10.

Definition getHeight (heightMap : list (list F)) (x z : F) : option F :=
  let spacing := query_spacing in
  gridX ← to_int (x / spacing);
  gridZ ← to_int (z / spacing);
  let gridX := clamp gridX 0 (GRID_W - 1) in
  let gridZ := clamp gridZ 0 (GRID_H - 1) in
  cell heightMap gridZ gridX.

(** *** [CapsuleCollider] *)

Record CapsuleCollider : Type := Capsule {
  posX : F;
  posY : F;
  posZ : F;
  velocityY : F;
  capsuleRadius : F;
  onGround : bool;
  clamped : bool;
  height : F
}.

Definition gravity : F := lit (-9.8).
Definition groundEpsilon : F := lit 0.001.

(** The constructor. *)
Definition CapsuleCollider_new (x y z height radius : F) : CapsuleCollider :=
  Capsule x y z (of_int 0) radius false false height.

Definition set_posX (v : F) (c : CapsuleCollider) : CapsuleCollider :=
  Capsule v (posY c) (posZ c) (velocityY c) (capsuleRadius c)
          (onGround c) (clamped c) (height c).
Definition set_posY (v : F) (c : CapsuleCollider) : CapsuleCollider :=
  Capsule (posX c) v (posZ c) (velocityY c) (capsuleRadius c)
          (onGround c) (clamped c) (height c).
Definition set_posZ (v : F) (c : CapsuleCollider) : CapsuleCollider :=
  Capsule (posX c) (posY c) v (velocityY c) (capsuleRadius c)
          (onGround c) (clamped c) (height c).
Definition set_velocityY (v : F) (c : CapsuleCollider) : CapsuleCollider :=
  Capsule (posX c) (posY c) (posZ c) v (capsuleRadius c)
          (onGround c) (clamped c) (height c).

(** [update]: the statements of the method, in order. *)
Definition update (dt : F) (getTerrainHeight : F -> F -> F)
    (c : CapsuleCollider) : CapsuleCollider :=
  let c := set_velocityY (velocityY c + gravity * dt) c in
  let newY := posY c + velocityY c * dt in
  let terrainY := getTerrainHeight (posX c) (posZ c) in
  let capsuleBottom := newY - height c / lit 2 in
  let '(newY, c) :=
    if capsuleBottom <=? terrainY
    then (terrainY + height c / lit 2, set_velocityY (lit 0) c)
    else (newY, c) in
  set_posY newY c.

Definition moveHorizontal (dx dz : F) (c : CapsuleCollider)
  : CapsuleCollider :=
  let c := set_posX (posX c + dx) c in
  set_posZ (posZ c + dz) c.

(** What the frame loop does to the collider. *)
Inductive capsule_op : Type :=
| OpUpdate (dt : F) (getTerrainHeight : F -> F -> F)
| OpMove (dx dz : F).

Definition apply_op (c : CapsuleCollider) (o : capsule_op) : CapsuleCollider :=
  match o with
  | OpUpdate dt q => update dt q c
  | OpMove dx dz => moveHorizontal dx dz c
  end.

Definition run_ops (ops : list capsule_op) (c : CapsuleCollider)
  : CapsuleCollider :=
  foldl apply_op c ops.

(** [n] ticks of [update] with the same [dt] and height query. *)
Definition ticks (n : nat) (dt : F) (q : F -> F -> F) (c : CapsuleCollider)
  : CapsuleCollider :=
  Nat.iter n (update dt q) c.

(** *** [findSpawnPoint] *)

Record vec3 : Type := Vec3 { vx : F; vy : F; vz : F }.

Definition spawn_at (spacing capsuleHeight capsuleRadius center : F)
    (y x : Z) : vec3 :=
  let worldX := of_int x * spacing in
  let worldZ := of_int y * spacing in
  let worldY := center + capsuleHeight * lit 0.5 + capsuleRadius + lit 0.1 in
  Vec3 worldX worldY worldZ.

Definition spawn_fallback : vec3 := Vec3 (lit 0) (lit 50) (lit 0).

(** [findSpawnPoint]; the two sizes are taken to fit the [int]s [w] and
    [h]. *)
Definition findSpawnPoint (heightMap : list (list F))
    (spacing capsuleHeight capsuleRadius : F) : option vec3 :=
  row0 ← vget heightMap 0;
  let w := Z.of_nat (length row0) in
  let h := Z.of_nat (length heightMap) in
  r ← scan_range 5 (h - 5) (fun y =>
        scan_range 5 (w - 5) (fun x =>
          center ← cell heightMap y x;
          right ← cell heightMap y (x + 1);
          let dx := fabs (center - right) in
          down ← cell heightMap (y + 1) x;
          let dz := fabs (center - down) in
          if (dx <? lit 1) && (dz <? lit 1)
          then Some (Some (spawn_at spacing capsuleHeight capsuleRadius
                                    center y x))
          else Some None));
  Some (default spawn_fallback r).

End Program.

Arguments noise_acc F : clear implicits.
Arguments CapsuleCollider F : clear implicits.
Arguments capsule_op F : clear implicits.
Arguments vec3 F : clear implicits.

(** ** Exact real arithmetic *)

Definition Rleb (a b : R) : bool := if Rle_dec a b then true else false.
Definition Rltb (a b : R) : bool := if Rlt_dec a b then true else false.

(** Truncation toward zero. *)
Definition Rtrunc (x : R) : Z :=
  if Rle_dec 0 x then Int_part x else (- Int_part (- x))%Z.

(** [static_cast<int>(x)]: undefined when the truncated value is not an
    [int]. *)
Definition R_to_int (x : R) : option Z :=
  if in_int (Rtrunc x) then Some (Rtrunc x) else None.

#[export] Instance real_ops : FloatOps R := {|
  fadd := Rplus;
  fsub := Rminus;
  fmul := Rmult;
  fdiv := Rdiv;
  fle := Rleb;
  flt := Rltb;
  fabs := Rabs;
  of_int := IZR;
  to_int := R_to_int;
  lit := Q2R
|}.

#[export] Instance real_trig : TrigOps R := {|
  fsin := sin;
  fcos := cos
|}.

(** ** IEEE-754 single precision *)

Definition b32_of_int (n : Z) : spec_float := binary_normalize 24 128 n 0 false.

Definition b32_to_int (x : spec_float) : option Z :=
  match x with
  | S754_zero _ => Some 0%Z
  | S754_finite s m e =>
      let mag := if (0 <=? e)%Z then (Z.pos m * 2 ^ e)%Z
                 else (Z.pos m / 2 ^ (- e))%Z in
      let n := if s then (- mag)%Z else mag in
      if in_int n then Some n else None
  | S754_infinity _ | S754_nan => None
  end.

(** A literal is the float nearest to its decimal value. *)
Definition b32_lit (q : Q) : spec_float :=
  SFdiv 24 128 (b32_of_int (Qnum q)) (b32_of_int (Z.pos (Qden q))).

(** There is no [TrigOps] for this arithmetic: [sinf] and [cosf] belong to
    the C library. *)
#[export] Instance binary32_ops : FloatOps spec_float := {|
  fadd := SFadd 24 128;
  fsub := SFsub 24 128;
  fmul := SFmul 24 128;
  fdiv := SFdiv 24 128;
  fle := SFleb;
  flt := SFltb;
  fabs := SFabs;
  of_int := b32_of_int;
  to_int := b32_to_int;
  lit := b32_lit
|}.

(** ** Descriptions used in the statements *)

Section Descriptions.
Context {F : Type} `{FloatOps F} `{TrigOps F}.
Local Open Scope fl_scope.

(** The elevation of the grid point [(x, y)]: the expression that
    [generateHeightMap] and [generateVertices] both compute. *)
Definition elevation (scale : F) (x y : Z) : F :=
  (fractalNoise (of_int x * scale) (of_int y * scale) 6 (lit 0.7) - lit 0.5)
  * lit 50.

Definition row_of (scale : F) (w y : Z) : list F :=
  (fun x => elevation scale x y) <$> seqZ 0 w.

(** The value of [frequency] in [fractalNoise] when octave [n] starts:
    [0.5f], doubled [n] times. *)
Definition octave_frequency (n : nat) : F :=
  Nat.iter n (fun f => f * lit 2) (lit 0.5).

(** The grid of [h] rows by [w] columns of elevations. *)
Definition grid_of (scale : F) (w h : Z) : list (list F) :=
  row_of scale w <$> seqZ 0 h.

(** [heightMap] has [h] rows of [w] cells each. *)
Definition rect (w h : Z) (heightMap : list (list F)) : Prop :=
  Z.of_nat (length heightMap) = h
  /\ Forall (fun row => Z.of_nat (length row) = w) heightMap.

(** The three floats that [generateVertices] pushes for the cell
    [(x, y)], and the buffer it pushes for the whole grid. *)
Definition vertex_block (scale : F) (y x : Z) : list F :=
  [of_int x * vertex_spacing; elevation scale x y; of_int y * vertex_spacing].

Definition vertices_of (scale : F) (w h : Z) : list F :=
  mjoin ((fun y => mjoin (vertex_block scale y <$> seqZ 0 w)) <$> seqZ 0 h).

(** The [k]-th vertex of a vertex buffer: three consecutive floats. *)
Definition vertex (verts : list F) (k : Z) : option (vec3 F) :=
  a ← vget verts (3 * k);
  b ← vget verts (3 * k + 1);
  c ← vget verts (3 * k + 2);
  Some (Vec3 a b c).

(** The test of [update]: the capsule bottom of the predicted position is
    at or below the terrain. *)
Definition snaps (dt : F) (q : F -> F -> F) (c : CapsuleCollider F) : bool :=
  let velocityY' := velocityY c + gravity * dt in
  let candidateY := posY c + velocityY' * dt in
  candidateY - height c / lit 2 <=? q (posX c) (posZ c).

(** The stored elevation of a cell, for cells of the grid. *)
Definition elev_at (heightMap : list (list F)) (y x : Z) : F :=
  default (lit 0) (cell heightMap y x).

Definition flatness_threshold : F := lit 1.
Definition clearance : F := lit 0.1.

(** Both differences, to the cell one step right and to the cell one step
    down, are under the threshold. *)
Definition is_flat (heightMap : list (list F)) (c : Z * Z) : bool :=
  let '(y, x) := c in
  (fabs (elev_at heightMap y x - elev_at heightMap y (x + 1))
     <? flatness_threshold)
  && (fabs (elev_at heightMap y x - elev_at heightMap (y + 1) x)
        <? flatness_threshold).

(** The cells [(y, x)] of the scan, row-major: [y] in [[5, h-5)],
    [x] in [[5, w-5)]. *)
Definition scan_cells (w h : Z) : list (Z * Z) :=
  y ← seqZ 5 (h - 10); x ← seqZ 5 (w - 10); [(y, x)].

Definition first_flat (heightMap : list (list F)) (w h : Z)
  : option (Z * Z) :=
  head (filter (fun c => is_flat heightMap c) (scan_cells w h)).

(** A grid whose elevations are all [e]. *)
Definition flat_grid (e : F) (w h : Z) : list (list F) :=
  replicate (Z.to_nat h) (replicate (Z.to_nat w) e).

End Descriptions.

(** The spawn position over cell [(y, x)] of elevation [e], and the
    fallback, in real arithmetic. *)
Definition spawn_position (spacing capsuleHeight capsuleRadius e : R)
    (y x : Z) : vec3 R :=
  Vec3 (IZR x * spacing)%R
       (e + capsuleHeight / 2 + capsuleRadius + clearance)%R
       (IZR y * spacing)%R.


(** The grid index of the nearest-cell query, as the description has it:
    [floor (world / spacing)] clamped to [[0, n-1]]. *)
Definition floor_index (world : R) (n : Z) : Z :=
  clamp (Int_part (world / 10)) 0 (n - 1).

(** The terrain of [main]: [generateHeightMap(GRID_W, GRID_H, 0.15f)] on the
    empty global. *)
Definition main_terrain : option (list (list R)) :=
  generateHeightMap GRID_W GRID_H (lit 0.15) [].

(** A capsule of height 4 and radius 1 created at height 2 over the origin. *)
Definition low_capsule : CapsuleCollider R :=
  CapsuleCollider_new 0%R 2%R 0%R 4%R 1%R.

(** The height query of a flat terrain of elevation [E]. *)
Definition flat_terrain {F : Type} (E : F) : F -> F -> F := fun _ _ => E.

Definition sea_level : R -> R -> R := flat_terrain 0%R.

(** The same capsule created at height 10. *)
Definition high_capsule : CapsuleCollider R :=
  CapsuleCollider_new 0%R 10%R 0%R 4%R 1%R.

(** In single precision: a capsule of height 4 created at height 10, and
    the height query of a flat terrain of elevation [0.1f]. *)
Definition capsule32 : CapsuleCollider spec_float :=
  CapsuleCollider_new (lit 0) (lit 10) (lit 0) (lit 4) (lit 1).

Definition shelf32 : spec_float -> spec_float -> spec_float :=
  flat_terrain (lit 0.1).

(** A 256 by 256 grid in single precision whose cell [(x, y)] holds [x]. *)
Definition ramp32 : list (list spec_float) :=
  (fun _ => b32_of_int <$> seqZ 0 GRID_W) <$> seqZ 0 GRID_H.

(** ** The index buffer, the camera angles *)

(** [a - b] and [a * b] on [int]; signed overflow is undefined. *)
Definition int_sub (a b : Z) : option Z :=
  if in_int (a - b) then Some (a - b)%Z else None.

Definition int_mul (a b : Z) : option Z :=
  if in_int (a * b) then Some (a * b)%Z else None.

(** Conversion to [unsigned int], and [+=] on [unsigned int]: modulo
    [2^32]. *)
Definition to_uint (n : Z) : Z := (n mod 2 ^ 32)%Z.

Definition uint_add (a b : Z) : Z := ((a + b) mod 2 ^ 32)%Z.

(** [generateIndices]: one triangle strip per pair of rows. *)
Definition generateIndices (strips : list (list Z)) (w h : Z)
  : option (list (list Z)) :=
  hi ← int_sub h 1;
  for_rangeM 0 hi (fun y strips =>
    strip ← for_rangeM 0 w (fun x strip =>
      yw ← int_mul y w;
      v0 ← int_add yw x;
      y1 ← int_add y 1;
      y1w ← int_mul y1 w;
      v1 ← int_add y1w x;
      let strip := strip ++ [to_uint v0] in
      Some (strip ++ [to_uint v1])) [];
    Some (strips ++ [strip])) strips.

(** The loop of [main] that flattens the strips: the state is
    [(allIndices, stripOffsets, offset)]. *)
Definition flatten_step (st : list Z * list Z * Z) (strip : list Z)
  : list Z * list Z * Z :=
  let '(allIndices, stripOffsets, offset) := st in
  (allIndices ++ strip,
   stripOffsets ++ [offset],
   uint_add offset (to_uint (Z.of_nat (length strip)))).

Definition flatten_strips (strips : list (list Z)) : list Z * list Z * Z :=
  foldl flatten_step ([], [], 0%Z) strips.

(** The strip of the rows [y] and [y+1], and all the strips of a grid. *)
Definition strip_of (w y : Z) : list Z :=
  mjoin ((fun x => [y * w + x; (y + 1) * w + x]%Z) <$> seqZ 0 w).

Definition strips_of (w h : Z) : list (list Z) :=
  strip_of w <$> seqZ 0 (h - 1).

(** What [mouse_callback] needs beyond [FloatOps]: the [double] of the
    cursor position with its conversions, and the two GLM functions
    [glm::radians] and [glm::normalize], which are not part of the
    repository and are left open. *)
Class CursorOps (F D : Type) : Type := {
  d_sub : D -> D -> D;           (* - on double *)
  d_of_float : F -> D;           (* float -> double *)
  d_to_float : D -> F;           (* double -> float *)
  radians : F -> F;              (* glm::radians *)
  normalize : vec3 F -> vec3 F   (* glm::normalize *)
}.

Section Mouse.
Context {F D : Type} `{FloatOps F} `{TrigOps F} `{CursorOps F D}.
Local Open Scope fl_scope.

(** The globals that [mouse_callback] reads and writes. *)
Record mouse_state : Type := MouseState {
  yaw : F;
  pitch : F;
  lastX : F;
  lastY : F;
  firstMouse : bool;
  cameraFront : vec3 F
}.

(** [std::clamp] on [float]. *)
Definition fclamp (v lo hi : F) : F :=
  if v <? lo then lo else if hi <? v then hi else v.

Definition mouse_callback (xpos ypos : D) (st : mouse_state) : mouse_state :=
  let '(lastX0, lastY0) :=
    if firstMouse st then (d_to_float xpos, d_to_float ypos)
    else (lastX st, lastY st) in
  let xoffset := d_to_float (d_sub xpos (d_of_float lastX0)) in
  let yoffset := d_to_float (d_sub (d_of_float lastY0) ypos) in
  let sensitivity := lit 0.1 in
  let xoffset := xoffset * sensitivity in
  let yoffset := yoffset * sensitivity in
  let yaw' := yaw st + xoffset in
  let pitch' := pitch st + yoffset in
  let pitch' := fclamp pitch' (lit (-89)) (lit 89) in
  let dir :=
    Vec3 (fcos (radians yaw') * fcos (radians pitch'))
         (fsin (radians pitch'))
         (fsin (radians yaw') * fcos (radians pitch')) in
  MouseState yaw' pitch' (d_to_float xpos) (d_to_float ypos) false
             (normalize dir).

(** The cursor events of a session, in order. *)
Definition mouse_events (events : list (D * D)) (st : mouse_state)
  : mouse_state :=
  foldl (fun st e => mouse_callback e.1 e.2 st) st events.

End Mouse.

Arguments mouse_state F : clear implicits.

(** In real arithmetic a [double] is a real as well; [glm::radians] is the
    scaling by [PI / 180] and [glm::normalize] the division by the length. *)
#[export] Instance real_cursor : CursorOps R R := {|
  d_sub := Rminus;
  d_of_float := fun x => x;
  d_to_float := fun x => x;
  radians := fun deg => (deg * (PI / 180))%R;
  normalize := fun v =>
    let n := sqrt (vx v * vx v + vy v * vy v + vz v * vz v)%R in
    Vec3 (vx v / n)%R (vy v / n)%R (vz v / n)%R
|}.

(** The state [main] starts from: [yaw = -90], [pitch = 0], the cursor at
    the centre of the 1600 by 900 window, no event seen yet. *)
Definition mouse_init : mouse_state R :=
  MouseState (-90)%R 0%R 800%R 450%R true (Vec3 0 0 (-1))%R.

(** A world coordinate clamped into the extent of the 256-cell grid,
    [[0, 255 * 10]]. *)
Definition extent_clamp (v : R) : R := Rmax 0 (Rmin v 2550).

(** What [getInterpolatedHeight] does along one axis: it blends the values
    [g] of the two clamped neighbours of the cell position [r]. *)
Definition blend_axis (g : Z -> R) (r : R) : R :=
  mix (g (clamp (Rtrunc r) 0 255)) (g (clamp (Rtrunc r + 1) 0 255))
      (r - IZR (Rtrunc r))%R.

(** * Results *)

(** ** Vectors and loops *)

Lemma vget_Some {A} (v : list A) (i : nat) :
  vget v (Z.of_nat i) = v !! i.
Proof.
  unfold vget. destruct (Z.ltb_spec (Z.of_nat i) 0); [lia|].
  by rewrite Nat2Z.id.
Qed.

Lemma vget_nonneg {A} (v : list A) (i : Z) :
  (0 <= i)%Z -> vget v i = v !! Z.to_nat i.
Proof.
  intros Hi. unfold vget. by destruct (Z.ltb_spec i 0); [lia|].
Qed.

Lemma vset_Some {A} (v : list A) (i : nat) (x : A) :
  (i < length v)%nat -> vset v (Z.of_nat i) x = Some (<[i := x]> v).
Proof.
  intros Hi. unfold vset.
  destruct (Z.leb_spec 0 (Z.of_nat i)); [|lia].
  destruct (Z.ltb_spec (Z.of_nat i) (Z.of_nat (length v))); [|lia].
  by rewrite Nat2Z.id.
Qed.

(** A loop whose body does not look at the counter is an iteration. *)
Lemma for_from_iter {S} (n : nat) (i : Z) (f : S -> S) (s : S) :
  for_from n i (fun _ => f) s = Nat.iter n f s.
Proof.
  revert i s. induction n as [|n IH]; intros i s; [done|].
  cbn [for_from]. rewrite IH. symmetry. apply Nat.iter_succ_r.
Qed.

Lemma for_rangeM_0 {S} (hi : Z) (body : Z -> S -> option S) (s : S) :
  for_rangeM 0 hi body s = for_fromM (Z.to_nat hi) (Z.of_nat 0) body s.
Proof. unfold for_rangeM. by rewrite Z.sub_0_r. Qed.

Lemma for_range_0 {S} (hi : Z) (body : Z -> S -> S) (s : S) :
  for_range 0 hi body s = for_from (Z.to_nat hi) (Z.of_nat 0) body s.
Proof. unfold for_range. by rewrite Z.sub_0_r. Qed.

Lemma seqZ_to_nat (m n : Z) : seqZ m (Z.of_nat (Z.to_nat n)) = seqZ m n.
Proof.
  destruct (Z.le_gt_cases 0 n); [by rewrite Z2Nat.id|].
  by rewrite !seqZ_nil by lia.
Qed.

(** A loop with early return yields what the first returning turn yields. *)
Lemma scan_from_first {A} (g : Z -> option A) (body : Z -> option (option A))
    (n : nat) :
  forall i : Z,
    (forall j, (i <= j < i + Z.of_nat n)%Z -> body j = Some (g j)) ->
    scan_from n i body = Some (head (omap g (seqZ i (Z.of_nat n)))).
Proof.
  induction n as [|n IH]; intros i Hbody.
  - by rewrite seqZ_nil by lia.
  - cbn [scan_from]. rewrite Hbody by lia. cbn [mbind option_bind].
    rewrite (seqZ_cons i) by lia. csimpl.
    replace (Z.pred (Z.of_nat (S n))) with (Z.of_nat n) by lia.
    destruct (g i) as [v|]; [done|].
    rewrite IH; [by replace (i + 1)%Z with (Z.succ i) by lia|].
    intros j Hj. apply Hbody. lia.
Qed.

Lemma scan_range_first {A} (g : Z -> option A) (body : Z -> option (option A))
    (lo hi : Z) :
  (forall j, (lo <= j < hi)%Z -> body j = Some (g j)) ->
  scan_range lo hi body = Some (head (omap g (seqZ lo (hi - lo)))).
Proof.
  intros Hbody. unfold scan_range.
  rewrite (scan_from_first g) by (intros j Hj; apply Hbody; lia).
  by rewrite seqZ_to_nat.
Qed.

Lemma head_omap_app {A B} (f : A -> option B) (l1 l2 : list A) :
  head (omap f (l1 ++ l2))
  = match head (omap f l1) with
    | Some v => Some v
    | None => head (omap f l2)
    end.
Proof.
  induction l1 as [|a l1 IH]; [done|]. csimpl. by destruct (f a).
Qed.

(** Nested scans visit the pairs in row-major order. *)
Lemma head_omap_nested {A} (g : Z -> Z -> option A) (ys xs : list Z) :
  head (omap (fun y => head (omap (g y) xs)) ys)
  = head (omap (fun c : Z * Z => g c.1 c.2)
               (y ← ys; x ← xs; [(y, x)])).
Proof.
  induction ys as [|y ys IH]; [done|]. csimpl.
  rewrite head_omap_app, <- IH.
  assert (E : omap (fun c : Z * Z => g c.1 c.2) (x ← xs; [(y, x)])
              = omap (g y) xs).
  { clear IH. induction xs as [|x xs IHx]; [done|]. csimpl.
    by rewrite IHx. }
  rewrite E. by destruct (head (omap (g y) xs)).
Qed.

Lemma head_omap_filter {A B} (p : A -> bool) (f : A -> B) (l : list A) :
  head (omap (fun a => if p a then Some (f a) else None) l)
  = f <$> head (filter (fun a => p a) l).
Proof.
  induction l as [|a l IH]; [done|]. csimpl.
  rewrite filter_cons. by destruct (p a).
Qed.

Lemma omap_pointwise {A B} (f g : A -> option B) (l : list A) :
  (forall a, f a = g a) -> omap f l = omap g l.
Proof.
  intros Hfg. induction l as [|a l IH]; [done|]. csimpl.
  by rewrite Hfg, IH.
Qed.

Section Generic.
Context {F : Type} `{FloatOps F} `{TrigOps F}.
Local Open Scope fl_scope.

(** *** The capsule collider *)

(** C1: [update] integrates the velocity with [gravity * dt], predicts
    [candidateY], queries the terrain at [(posX, posZ)], and either snaps
    to [terrainY + height/2] with velocity [0] (when
    [candidateY - height/2 <= terrainY]) or accepts [candidateY] with the
    integrated velocity; [posX], [posZ] and every other field are left as
    they were.  This holds in every arithmetic. *)
Theorem update_spec (dt : F) (q : F -> F -> F) (c : CapsuleCollider F) :
  let velocityY' := velocityY c + gravity * dt in
  let candidateY := posY c + velocityY' * dt in
  let terrainY := q (posX c) (posZ c) in
  update dt q c =
    if candidateY - height c / lit 2 <=? terrainY
    then Capsule (posX c) (terrainY + height c / lit 2) (posZ c) (lit 0)
                 (capsuleRadius c) (onGround c) (clamped c) (height c)
    else Capsule (posX c) candidateY (posZ c) velocityY'
                 (capsuleRadius c) (onGround c) (clamped c) (height c).
Proof.
  intros v' cand terr. unfold update.
  cbn [set_velocityY velocityY posY posX posZ height].
  fold v' cand terr.
  destruct (cand - height c / lit 2 <=? terr); reflexivity.
Qed.

Lemma update_flags (dt : F) (q : F -> F -> F) (c : CapsuleCollider F) :
  onGround (update dt q c) = onGround c
  /\ clamped (update dt q c) = clamped c.
Proof.
  unfold update. by destruct (_ <=? _).
Qed.

Lemma moveHorizontal_flags (dx dz : F) (c : CapsuleCollider F) :
  onGround (moveHorizontal dx dz c) = onGround c
  /\ clamped (moveHorizontal dx dz c) = clamped c.
Proof. done. Qed.

Lemma run_ops_flags (ops : list (capsule_op F)) (c : CapsuleCollider F) :
  onGround (run_ops ops c) = onGround c
  /\ clamped (run_ops ops c) = clamped c.
Proof.
  revert c. induction ops as [|o ops IH]; intros c; [done|].
  cbn [run_ops foldl]. fold (run_ops ops (apply_op c o)).
  destruct (IH (apply_op c o)) as [-> ->].
  destruct o; [apply update_flags | apply moveHorizontal_flags].
Qed.

(** C3, as the code has it: the constructor sets [onGround] and [clamped]
    to [false], and neither [update] nor [moveHorizontal] writes them: a
    call to [update] leaves both as they were, whichever branch it takes,
    so both are [false] after every sequence of calls on a constructed
    collider. *)
Theorem flags_never_set :
  (forall dt q (c : CapsuleCollider F),
      onGround (update dt q c) = onGround c
      /\ clamped (update dt q c) = clamped c)
  /\ (forall x y z height radius (ops : list (capsule_op F)),
        let c := run_ops ops (CapsuleCollider_new x y z height radius) in
        onGround c = false /\ clamped c = false).
Proof.
  split; [apply update_flags|].
  intros x y z h r ops c. subst c.
  by destruct (run_ops_flags ops (CapsuleCollider_new x y z h r)) as [-> ->].
Qed.

(** *** The height grid *)

Lemma set_cell_Some (hm : list (list F)) (y x : nat) (v : F) (row : list F) :
  hm !! y = Some row -> (x < length row)%nat ->
  set_cell (Z.of_nat y) (Z.of_nat x) v hm
  = Some (<[y := <[x := v]> row]> hm).
Proof.
  intros Hrow Hx. unfold set_cell.
  rewrite vget_Some, Hrow. cbn [mbind option_bind].
  rewrite vset_Some by done. cbn [mbind option_bind].
  apply vset_Some. by eapply lookup_lt_Some.
Qed.

Lemma resize_row_Some (hm : list (list F)) (y : nat) (w : Z) (row : list F) :
  hm !! y = Some row -> (0 <= w)%Z ->
  resize_row (Z.of_nat y) w hm
  = Some (<[y := resize (Z.to_nat w) (lit 0) row]> hm).
Proof.
  intros Hrow Hw. unfold resize_row, vresize.
  rewrite vget_Some, Hrow. cbn [mbind option_bind].
  destruct (Z.ltb_spec w 0); [lia|]. cbn [mbind option_bind].
  apply vset_Some. by eapply lookup_lt_Some.
Qed.

(** The inner loop writes the cells [k], [k+1], ... of row [y]. *)
Lemma fill_row (f : Z -> F) (y : nat) (n : nat) :
  forall (k : nat) (row : list F) (hm : list (list F)),
    hm !! y = Some row -> length row = (k + n)%nat ->
    for_fromM n (Z.of_nat k)
              (fun x hm => set_cell (Z.of_nat y) x (f x) hm) hm
    = Some (<[y := take k row ++ (f <$> seqZ (Z.of_nat k) (Z.of_nat n))]> hm).
Proof.
  induction n as [|n IH]; intros k row hm Hrow Hlen.
  - cbn [for_fromM]. f_equal. rewrite seqZ_nil by lia. cbn [fmap list_fmap].
    rewrite app_nil_r, firstn_all2 by lia. symmetry. by apply list_insert_id.
  - cbn [for_fromM].
    rewrite (set_cell_Some _ _ _ _ row) by (done || lia).
    cbn [mbind option_bind].
    assert (Hy : (y < length hm)%nat) by (by eapply lookup_lt_Some).
    replace (Z.of_nat k + 1)%Z with (Z.of_nat (S k)) by lia.
    rewrite (IH (S k) (<[k := f (Z.of_nat k)]> row)).
    + rewrite list_insert_insert_eq. do 2 f_equal.
      rewrite (take_S_r _ _ (f (Z.of_nat k)))
        by (apply list_lookup_insert_eq; lia).
      rewrite take_insert_ge by lia.
      rewrite (seqZ_cons (Z.of_nat k)) by lia. cbn [fmap list_fmap].
      rewrite <- app_assoc. cbn [app].
      replace (Z.succ (Z.of_nat k)) with (Z.of_nat (S k)) by lia.
      by replace (Z.pred (Z.of_nat (S n))) with (Z.of_nat n) by lia.
    + by apply list_lookup_insert_eq.
    + rewrite length_insert. lia.
Qed.

(** The outer loop builds the rows [k], [k+1], ... *)
Lemma fill_rows (scale : F) (w : Z) (n : nat) :
  (0 <= w)%Z ->
  forall (k : nat) (hm : list (list F)),
    length hm = (k + n)%nat ->
    for_fromM n (Z.of_nat k) (fun y hm =>
      hm ← resize_row y w hm;
      for_rangeM 0 w (fun x hm =>
        set_cell y x (elevation scale x y) hm) hm) hm
    = Some (take k hm ++ (row_of scale w <$> seqZ (Z.of_nat k) (Z.of_nat n))).
Proof.
  intros Hw. induction n as [|n IH]; intros k hm Hlen.
  - cbn [for_fromM]. rewrite seqZ_nil by lia. cbn [fmap list_fmap].
    by rewrite app_nil_r, firstn_all2 by lia.
  - cbn [for_fromM].
    destruct (lookup_lt_is_Some_2 hm k) as [row Hrow]; [lia|].
    rewrite (resize_row_Some _ _ _ row) by done.
    cbn [mbind option_bind]. rewrite for_rangeM_0.
    rewrite (fill_row (fun x => elevation scale x (Z.of_nat k)) k
               (Z.to_nat w) 0 (resize (Z.to_nat w) (lit 0) row)).
    + cbn [mbind option_bind].
      rewrite list_insert_insert_eq. cbn [take app].
      rewrite Z2Nat.id by done. change (Z.of_nat 0) with 0%Z.
      fold (row_of scale w (Z.of_nat k)).
      replace (Z.of_nat k + 1)%Z with (Z.of_nat (S k)) by lia.
      rewrite IH by (rewrite length_insert; lia). f_equal.
      rewrite (take_S_r _ _ (row_of scale w (Z.of_nat k)))
        by (apply list_lookup_insert_eq; lia).
      rewrite take_insert_ge by lia.
      rewrite (seqZ_cons (Z.of_nat k)) by lia. cbn [fmap list_fmap].
      rewrite <- app_assoc. cbn [app].
      replace (Z.succ (Z.of_nat k)) with (Z.of_nat (S k)) by lia.
      by replace (Z.pred (Z.of_nat (S n))) with (Z.of_nat n) by lia.
    + apply list_lookup_insert_eq. lia.
    + rewrite length_resize. lia.
Qed.

(** [generateHeightMap] returns the grid of elevations, whatever the
    global held before. *)
Lemma generateHeightMap_grid (w h : Z) (scale : F) (hm0 : list (list F)) :
  (0 <= w)%Z -> (0 <= h)%Z ->
  generateHeightMap w h scale hm0 = Some (grid_of scale w h).
Proof.
  intros Hw Hh. unfold generateHeightMap, vresize.
  destruct (Z.ltb_spec h 0); [lia|]. cbn [mbind option_bind].
  rewrite for_rangeM_0.
  etransitivity; [apply (fill_rows scale w (Z.to_nat h) Hw 0)|].
  - by rewrite length_resize.
  - cbn [take app]. by rewrite Z2Nat.id.
Qed.

Lemma grid_of_row (scale : F) (w h y : Z) :
  (0 <= y < h)%Z ->
  vget (grid_of scale w h) y = Some (row_of scale w y).
Proof.
  intros Hy. rewrite vget_nonneg by lia. unfold grid_of.
  rewrite list_lookup_fmap, lookup_seqZ_lt by lia. cbn. f_equal. f_equal. lia.
Qed.

Lemma grid_of_cell (scale : F) (w h x y : Z) :
  (0 <= x < w)%Z -> (0 <= y < h)%Z ->
  cell (grid_of scale w h) y x = Some (elevation scale x y).
Proof.
  intros Hx Hy. unfold cell. rewrite grid_of_row by done.
  cbn [mbind option_bind]. rewrite vget_nonneg by lia. unfold row_of.
  rewrite list_lookup_fmap, lookup_seqZ_lt by lia. cbn. do 2 f_equal. lia.
Qed.

Lemma grid_of_rect (scale : F) (w h : Z) :
  (0 <= w)%Z -> (0 <= h)%Z -> rect w h (grid_of scale w h).
Proof.
  intros Hw Hh. split.
  - unfold grid_of. rewrite length_fmap, length_seqZ. lia.
  - unfold grid_of. apply Forall_fmap, Forall_forall. intros y _. cbn.
    unfold row_of. rewrite length_fmap, length_seqZ. lia.
Qed.

(** Reading a cell of a rectangular grid is defined. *)
Lemma rect_cell (w h : Z) (hm : list (list F)) (x y : Z) :
  rect w h hm -> (0 <= x < w)%Z -> (0 <= y < h)%Z ->
  cell hm y x = Some (elev_at hm y x).
Proof.
  intros [Hh Hrows] Hx Hy. unfold elev_at, cell.
  rewrite vget_nonneg by lia.
  destruct (lookup_lt_is_Some_2 hm (Z.to_nat y)) as [row Hrow]; [lia|].
  rewrite Hrow. cbn [mbind option_bind].
  rewrite vget_nonneg by lia.
  assert (Hlen : Z.of_nat (length row) = w).
  { rewrite Forall_forall in Hrows. apply Hrows.
    by eapply list_elem_of_lookup_2. }
  destruct (lookup_lt_is_Some_2 row (Z.to_nat x)) as [e He]; [lia|].
  by rewrite He.
Qed.

(** *** The vertex buffer *)

Lemma push_row (scale : F) (y : Z) (n : nat) :
  forall (k : Z) (verts : list F),
    for_from n k (fun x verts =>
      let hNoise := fractalNoise2 (of_int x * scale) (of_int y * scale) in
      let height := (hNoise - lit 0.5) * lit 50 in
      let verts := verts ++ [of_int x * vertex_spacing] in
      let verts := verts ++ [height] in
      verts ++ [of_int y * vertex_spacing]) verts
    = verts ++ mjoin (vertex_block scale y <$> seqZ k (Z.of_nat n)).
Proof.
  induction n as [|n IH]; intros k verts.
  - cbn [for_from]. rewrite seqZ_nil by lia. cbn. by rewrite app_nil_r.
  - cbn [for_from]. rewrite IH. cbv zeta.
    rewrite (seqZ_cons k) by lia. cbn [fmap list_fmap mjoin list_join].
    rewrite <- !app_assoc. cbn [app].
    replace (Z.pred (Z.of_nat (S n))) with (Z.of_nat n) by lia.
    reflexivity.
Qed.

Lemma push_rows (scale : F) (w : Z) (n : nat) :
  forall (k : Z) (verts : list F),
    for_from n k (fun y verts =>
      for_range 0 w (fun x verts =>
        let hNoise := fractalNoise2 (of_int x * scale) (of_int y * scale) in
        let height := (hNoise - lit 0.5) * lit 50 in
        let verts := verts ++ [of_int x * vertex_spacing] in
        let verts := verts ++ [height] in
        verts ++ [of_int y * vertex_spacing]) verts) verts
    = verts
      ++ mjoin ((fun y => mjoin (vertex_block scale y <$> seqZ 0 w))
                <$> seqZ k (Z.of_nat n)).
Proof.
  induction n as [|n IH]; intros k verts.
  - cbn [for_from]. rewrite (seqZ_nil k (Z.of_nat 0)) by lia. cbn.
    by rewrite app_nil_r.
  - cbn [for_from]. rewrite IH. rewrite for_range_0, push_row.
    rewrite (seqZ_cons k) by lia. cbn [fmap list_fmap mjoin list_join].
    rewrite <- !app_assoc.
    replace (Z.pred (Z.of_nat (S n))) with (Z.of_nat n) by lia.
    change (Z.of_nat 0) with 0%Z.
    destruct (Z.le_gt_cases 0 w) as [Hw|Hw].
    + by rewrite Z2Nat.id.
    + replace (Z.to_nat w) with O by lia.
      by rewrite !(seqZ_nil _ w), (seqZ_nil _ (Z.of_nat 0)) by lia.
Qed.

(** [generateVertices] appends the vertices of the grid, row-major. *)
Lemma generateVertices_closed (verts : list F) (w h : Z) (scale : F) :
  generateVertices verts w h scale = verts ++ vertices_of scale w h.
Proof.
  unfold generateVertices. cbv zeta. rewrite for_range_0.
  rewrite push_rows. unfold vertices_of. change (Z.of_nat 0) with 0%Z.
  destruct (Z.le_gt_cases 0 h) as [Hh|Hh].
  - by rewrite Z2Nat.id.
  - replace (Z.to_nat h) with O by lia.
    by rewrite (seqZ_nil _ h), (seqZ_nil _ (Z.of_nat 0)) by lia.
Qed.

Lemma length_mjoin_blocks {A B} (g : A -> list B) (n : nat) (l : list A) :
  (forall a, length (g a) = n) ->
  length (mjoin (g <$> l)) = (length l * n)%nat.
Proof.
  intros Hg. induction l as [|a l IH]; [done|].
  csimpl. rewrite length_app, Hg, IH. lia.
Qed.

Lemma lookup_mjoin_blocks {A} (g : Z -> list A) (n : nat) (m i : Z)
    (j : nat) (v : A) :
  (forall k, length (g k) = n) ->
  (0 <= i < m)%Z -> (j < n)%nat -> g i !! j = Some v ->
  mjoin (g <$> seqZ 0 m) !! (Z.to_nat i * n + j)%nat = Some v.
Proof.
  intros Hg Hi Hj Hv.
  apply (join_lookup_Some_same_length' n); [|done|].
  - apply Forall_fmap, Forall_forall. intros k _. apply Hg.
  - exists (g i). split; [|done].
    rewrite list_lookup_fmap, lookup_seqZ_lt by lia. cbn. do 2 f_equal. lia.
Qed.

Lemma vertices_of_lookup (scale : F) (w h x y : Z) (j : nat) (v : F) :
  (0 <= x < w)%Z -> (0 <= y < h)%Z ->
  vertex_block scale y x !! j = Some v ->
  vget (vertices_of scale w h) (3 * (y * w + x) + Z.of_nat j) = Some v.
Proof.
  intros Hx Hy Hv.
  assert (Hj : (j < 3)%nat) by (by apply lookup_lt_Some in Hv).
  rewrite vget_nonneg by nia.
  replace (Z.to_nat (3 * (y * w + x) + Z.of_nat j))
    with (Z.to_nat y * (Z.to_nat w * 3) + (Z.to_nat x * 3 + j))%nat.
  2:{ apply Nat2Z.inj. rewrite Z2Nat.id by nia.
      rewrite !Nat2Z.inj_add, !Nat2Z.inj_mul, !Z2Nat.id by lia.
      change (Z.of_nat 3) with 3%Z. ring. }
  unfold vertices_of.
  apply (lookup_mjoin_blocks
           (fun y => mjoin (vertex_block scale y <$> seqZ 0 w))); [|done| |].
  - intros k. rewrite (length_mjoin_blocks _ 3) by done.
    rewrite length_seqZ. lia.
  - nia.
  - by apply (lookup_mjoin_blocks (vertex_block scale y) 3).
Qed.


(** *** The spawn finder *)

(** On a rectangular grid with at least one row, [findSpawnPoint] is
    defined and returns the position over the first flat cell of the
    row-major scan, or the fallback when the scan has none. *)
Lemma findSpawnPoint_scan (hm : list (list F)) (w h : Z)
    (spacing capsuleHeight capsuleRadius : F) :
  rect w h hm -> (1 <= h)%Z ->
  findSpawnPoint hm spacing capsuleHeight capsuleRadius
  = Some (match first_flat hm w h with
          | Some (y, x) =>
              spawn_at spacing capsuleHeight capsuleRadius
                       (elev_at hm y x) y x
          | None => spawn_fallback
          end).
Proof.
  intros Hrect Hh. pose proof Hrect as [Hlen Hrows].
  unfold findSpawnPoint. rewrite vget_nonneg by lia.
  destruct (lookup_lt_is_Some_2 hm (Z.to_nat 0)) as [row0 Hrow0]; [lia|].
  rewrite Hrow0. cbn [mbind option_bind].
  assert (Hw : Z.of_nat (length row0) = w).
  { rewrite Forall_forall in Hrows. apply Hrows.
    by eapply list_elem_of_lookup_2. }
  rewrite Hw, Hlen.
  set (pos := fun c : Z * Z =>
         spawn_at spacing capsuleHeight capsuleRadius
                  (elev_at hm c.1 c.2) c.1 c.2).
  set (g := fun y x : Z =>
         if is_flat hm (y, x) then Some (pos (y, x)) else None).
  rewrite (scan_range_first
             (fun y => head (omap (g y) (seqZ 5 (w - 5 - 5))))).
  - cbn [mbind option_bind]. f_equal.
    rewrite head_omap_nested.
    rewrite (omap_pointwise _
               (fun c => if is_flat hm c then Some (pos c) else None))
      by (by intros [y x]).
    rewrite head_omap_filter. unfold first_flat, scan_cells.
    replace (h - 5 - 5)%Z with (h - 10)%Z by lia.
    replace (w - 5 - 5)%Z with (w - 10)%Z by lia.
    by destruct (head _) as [[y x]|].
  - intros y Hy. apply scan_range_first. intros x Hx.
    rewrite (rect_cell w h), (rect_cell w h), (rect_cell w h)
      by (done || lia).
    cbn [mbind option_bind]. unfold g, is_flat, flatness_threshold, pos.
    cbn [fst snd]. by destruct (_ && _).
Qed.

End Generic.

(** ** Real arithmetic *)

Section Real.
Local Open Scope R_scope.

Lemma Rleb_true (a b : R) : Rleb a b = true <-> a <= b.
Proof. unfold Rleb. destruct (Rle_dec a b); split; (done || lra). Qed.


(** *** [fractalNoise] *)

(** What the loop of [fractalNoise] maintains. *)
Lemma noise_step_bounds (x y p : R) (a : noise_acc R) :
  0 < p ->
  0 <= total a <= maxValue a -> 0 < amplitude a ->
  let a' := noise_step x y p a in
  0 <= total a' <= maxValue a' /\ 0 < amplitude a' /\ 0 < maxValue a'.
Proof.
  intros Hp Ht Ha a'. subst a'. unfold noise_step.
  cbn [total maxValue amplitude frequency fadd fmul fsin fcos lit
       real_ops real_trig].
  pose proof (SIN_bound (x * frequency a)) as Hs.
  pose proof (COS_bound (y * frequency a)) as Hc.
  set (s := sin (x * frequency a)) in *.
  set (c := cos (y * frequency a)) in *.
  assert (Hsc : -1 <= s * c <= 1) by nra.
  replace (Q2R 0.5) with (1 / 2) by (unfold Q2R; cbn; lra).
  set (t := 1 / 2 * s * c + 1 / 2).
  assert (Ht01 : 0 <= t <= 1) by (unfold t; nra).
  clearbody t. clearbody s c.
  assert (Hat : 0 <= amplitude a * t) by (apply Rmult_le_pos; lra).
  assert (Hat1 : amplitude a * t <= amplitude a * 1)
    by (apply Rmult_le_compat_l; lra).
  assert (Hap : 0 < amplitude a * p) by (by apply Rmult_lt_0_compat).
  lra.
Qed.

Lemma noise_iter_bounds (x y p : R) (n : nat) :
  0 < p ->
  let a := Nat.iter n (noise_step x y p) noise_init in
  0 <= total a <= maxValue a /\ 0 < amplitude a.
Proof.
  intros Hp. induction n as [|n IH].
  - cbn. unfold Q2R; cbn. lra.
  - cbn [Nat.iter]. destruct IH as [IHt IHa].
    destruct (noise_step_bounds x y p _ Hp IHt IHa) as (? & ? & ?).
    done.
Qed.

Lemma fractalNoise_unit_range (x y : R) (octaves : Z) (p : R) :
  (1 <= octaves)%Z -> 0 < p ->
  0 <= fractalNoise x y octaves p <= 1.
Proof.
  intros Ho Hp. unfold fractalNoise, noise_loop.
  rewrite for_range_0, for_from_iter.
  destruct (Z.to_nat octaves) as [|n] eqn:En; [lia|].
  rewrite Nat.iter_succ.
  destruct (noise_iter_bounds x y p n Hp) as [Ht Ha].
  destruct (noise_step_bounds x y p _ Hp Ht Ha) as (Ht' & _ & Hm').
  cbv zeta in Ht', Hm'.
  set (a := noise_step x y p _) in *. clearbody a.
  cbn [fdiv real_ops]. split.
  - apply Rmult_le_pos; [lra|]. left. by apply Rinv_0_lt_compat.
  - apply (Rmult_le_reg_r (maxValue a)); [done|].
    unfold Rdiv. rewrite Rmult_assoc, Rinv_l by lra. lra.
Qed.

(** C6, in exact real arithmetic: [fractalNoise] is a function of its four
    arguments alone (it reads and writes no state, so equal arguments give
    equal results), and for every [x], [y], every octave count [>= 1] and
    every persistence in [(0, 1)] its result lies in [[0, 1]].  (In single
    precision the range fails where [x * frequency] overflows.) *)
Theorem fractalNoise_deterministic_unit (x y : R) (octaves : Z)
    (persistence : R) :
  (1 <= octaves)%Z -> 0 < persistence < 1 ->
  (forall x' y' octaves' persistence',
      x' = x -> y' = y -> octaves' = octaves -> persistence' = persistence ->
      fractalNoise x' y' octaves' persistence'
      = fractalNoise x y octaves persistence)
  /\ 0 <= fractalNoise x y octaves persistence <= 1.
Proof.
  intros Ho [Hp _]. split.
  - by intros x' y' o' p' -> -> -> ->.
  - by apply fractalNoise_unit_range.
Qed.

(** *** [generateHeightMap] *)

Lemma elevation_range (scale : R) (x y : Z) :
  -25 <= elevation scale x y <= 25.
Proof.
  unfold elevation.
  assert (Hp : 0 < lit 0.7) by (cbn; unfold Q2R; cbn; lra).
  pose proof (fractalNoise_unit_range (of_int x * scale) (of_int y * scale)
                6 (lit 0.7) ltac:(lia) Hp) as Hn.
  set (n := fractalNoise _ _ _ _) in *.
  cbn [fsub fmul lit real_ops]. unfold Q2R; cbn [Qnum Qden]. lra.
Qed.

(** C7: for positive [w] and [h] and any [scale], [generateHeightMap]
    leaves in [heightMap] exactly [h] rows of [w] cells each, and the cell
    [(x, y)] holds [(fractalNoise(x*scale, y*scale) - 0.5) * 50], with the
    default 6 octaves and persistence 0.7: so in every arithmetic, [float]
    included.  In exact real arithmetic every elevation lies in
    [[-25, 25]].  (In single precision a cell can be NaN, where the noise
    overflows.) *)
Theorem generateHeightMap_spec (w h : Z) (scale : R) (hm0 : list (list R)) :
  (0 < w)%Z -> (0 < h)%Z ->
  (exists hm,
     generateHeightMap w h scale hm0 = Some hm
     /\ length hm = Z.to_nat h
     /\ Forall (fun row => length row = Z.to_nat w) hm
     /\ forall x y, (0 <= x < w)%Z -> (0 <= y < h)%Z ->
          exists e,
            cell hm y x = Some e
            /\ e = (fractalNoise (IZR x * scale) (IZR y * scale) 6 (7 / 10)
                    - 1 / 2) * 50
            /\ -25 <= e <= 25)
  /\ forall (F : Type) (O : FloatOps F) (T : TrigOps F)
        (scaleF : F) (hmF : list (list F)),
      exists hm,
        generateHeightMap w h scaleF hmF = Some hm
        /\ length hm = Z.to_nat h
        /\ Forall (fun row => length row = Z.to_nat w) hm
        /\ forall x y, (0 <= x < w)%Z -> (0 <= y < h)%Z ->
             cell hm y x
             = Some (fmul (fsub (fractalNoise (fmul (of_int x) scaleF)
                                              (fmul (of_int y) scaleF)
                                              6 (lit 0.7))
                                (lit 0.5))
                          (lit 50)).
Proof.
  intros Hw Hh. split.
  - exists (grid_of scale w h).
    destruct (grid_of_rect scale w h) as [Hlen Hrows]; [lia..|].
    split; [apply generateHeightMap_grid; lia|].
    split; [lia|]. split.
    + eapply Forall_impl; [exact Hrows|]. cbn. intros row Hrow. lia.
    + intros x y Hx Hy. exists (elevation scale x y).
      split; [by apply grid_of_cell|]. split; [|apply elevation_range].
      unfold elevation. cbn [fsub fmul of_int lit real_ops].
      unfold Q2R; cbn [Qnum Qden].
      replace (7 * / 10) with (7 / 10) by lra.
      replace (5 * / 10) with (1 / 2) by lra. lra.
  - intros F O T scaleF hmF. exists (grid_of scaleF w h).
    destruct (grid_of_rect scaleF w h) as [Hlen Hrows]; [lia..|].
    split; [apply generateHeightMap_grid; lia|].
    split; [lia|]. split.
    + eapply Forall_impl; [exact Hrows|]. cbn. intros row Hrow. lia.
    + intros x y Hx Hy. by apply grid_of_cell.
Qed.

(** *** The capsule over flat terrain *)

Lemma update_real (dt : R) (q : R -> R -> R) (c : CapsuleCollider R) :
  let v := velocityY c + -98 / 10 * dt in
  let y := posY c + v * dt in
  update dt q c
  = if Rle_dec (y - height c / 2) (q (posX c) (posZ c))
    then set_posY (q (posX c) (posZ c) + height c / 2) (set_velocityY 0 c)
    else set_posY y (set_velocityY v c).
Proof.
  intros v y. unfold update, gravity.
  cbn [set_velocityY velocityY posY posX posZ height
       fadd fsub fmul fdiv fle lit real_ops].
  replace (Q2R (-9.8)) with (-98 / 10) by (unfold Q2R; cbn; lra).
  replace (Q2R 2) with 2 by (unfold Q2R; cbn; lra).
  replace (Q2R 0) with 0 by (unfold Q2R; cbn; lra).
  fold v y. unfold Rleb. by destruct (Rle_dec _ _).
Qed.

Section FlatTerrain.
Variables (E Hh dt : R).
Hypothesis dt_pos : 0 < dt.

(** Resting on the terrain, the capsule is put back where it was. *)
Lemma update_settled (c : CapsuleCollider R) :
  height c = Hh -> posY c = E + Hh / 2 -> velocityY c = 0 ->
  posY (update dt (flat_terrain E) c) = E + Hh / 2
  /\ velocityY (update dt (flat_terrain E) c) = 0
  /\ height (update dt (flat_terrain E) c) = Hh.
Proof.
  intros Hc Hy Hv. rewrite update_real. cbv zeta. unfold flat_terrain.
  destruct (Rle_dec _ _) as [_|Hn]; cbn; [by rewrite Hc|].
  exfalso. apply Hn. rewrite Hy, Hv, Hc. nra.
Qed.

(** A capsule that is not rising either lands or moves down by at least
    [9.8 * dt * dt] and stays above the terrain. *)
Lemma update_falling (c : CapsuleCollider R) :
  height c = Hh -> velocityY c <= 0 ->
  height (update dt (flat_terrain E) c) = Hh
  /\ ((posY (update dt (flat_terrain E) c) = E + Hh / 2
       /\ velocityY (update dt (flat_terrain E) c) = 0)
      \/ (velocityY (update dt (flat_terrain E) c) <= 0
          /\ posY (update dt (flat_terrain E) c) <= posY c - 98 / 10 * dt * dt
          /\ E < posY (update dt (flat_terrain E) c) - Hh / 2)).
Proof.
  intros Hc Hv. rewrite update_real. cbv zeta. unfold flat_terrain.
  destruct (Rle_dec _ _) as [Hle|Hn]; cbn.
  - split; [done|]. left. by rewrite Hc.
  - split; [done|]. right. rewrite Hc in Hn.
    split; [nra|]. split; [nra|]. lra.
Qed.

Lemma ticks_invariant (c : CapsuleCollider R) (n : nat) :
  height c = Hh -> velocityY c = 0 -> E < posY c - Hh / 2 ->
  height (ticks n dt (flat_terrain E) c) = Hh
  /\ ((posY (ticks n dt (flat_terrain E) c) = E + Hh / 2
       /\ velocityY (ticks n dt (flat_terrain E) c) = 0)
      \/ (velocityY (ticks n dt (flat_terrain E) c) <= 0
          /\ posY (ticks n dt (flat_terrain E) c)
             <= posY c - INR n * (98 / 10 * dt * dt)
          /\ E < posY (ticks n dt (flat_terrain E) c) - Hh / 2)).
Proof.
  intros Hc Hv Hy. induction n as [|n IH].
  - change (ticks 0 dt (flat_terrain E) c) with c. change (INR 0) with 0.
    split; [done|]. right. lra.
  - unfold ticks in *. rewrite Nat.iter_succ.
    set (s := Nat.iter n (update dt (flat_terrain E)) c) in *.
    destruct IH as [Hs [[Hsy Hsv]|(Hsv & Hsy & Hsb)]].
    + destruct (update_settled s Hs Hsy Hsv) as (? & ? & ?). by auto.
    + destruct (update_falling s Hs Hsv) as [Hh' [?|(? & ? & ?)]];
        [by auto|].
      split; [done|]. right. rewrite S_INR. split; [done|].
      split; [lra|done].
Qed.

Lemma ticks_settled_stays (c : CapsuleCollider R) (n m : nat) :
  height (ticks n dt (flat_terrain E) c) = Hh ->
  posY (ticks n dt (flat_terrain E) c) = E + Hh / 2 ->
  velocityY (ticks n dt (flat_terrain E) c) = 0 ->
  (n <= m)%nat ->
  posY (ticks m dt (flat_terrain E) c) = E + Hh / 2
  /\ velocityY (ticks m dt (flat_terrain E) c) = 0
  /\ height (ticks m dt (flat_terrain E) c) = Hh.
Proof.
  intros Hc Hy Hv Hnm. induction Hnm as [|m Hnm IH]; [done|].
  destruct IH as (? & ? & ?).
  unfold ticks in *. rewrite Nat.iter_succ. by apply update_settled.
Qed.

(** C4, in exact real arithmetic: a capsule of height [Hh] at rest with its
    bottom above a flat terrain of elevation [E], ticked with a fixed
    [dt > 0]: from some tick on it has [posY = E + Hh/2] and
    [velocityY = 0], and at every tick its bottom [posY - Hh/2] is at or
    above [E]. *)
Theorem capsule_settles (c : CapsuleCollider R) :
  height c = Hh -> velocityY c = 0 -> E < posY c - Hh / 2 ->
  (exists N : nat, forall n : nat, (N <= n)%nat ->
      posY (ticks n dt (flat_terrain E) c) = E + Hh / 2
      /\ velocityY (ticks n dt (flat_terrain E) c) = 0)
  /\ (forall n : nat, E <= posY (ticks n dt (flat_terrain E) c) - Hh / 2).
Proof.
  intros Hc Hv Hy. split.
  - remember (posY c - Hh / 2 - E) as d eqn:Hd0.
    remember (98 / 10 * dt * dt) as k eqn:Hk0.
    assert (Hk : 0 < k) by (subst k; nra).
    pose proof (archimed (d / k)) as [Hup _].
    assert (Hdk : 0 < d / k) by (apply Rdiv_lt_0_compat; lra).
    exists (Z.to_nat (up (d / k))). intros n Hn.
    destruct (ticks_invariant c (Z.to_nat (up (d / k))) Hc Hv Hy)
      as [Hs [[Hsy Hsv]|(_ & Hsy & Hsb)]].
    + destruct (ticks_settled_stays c _ n Hs Hsy Hsv Hn) as (? & ? & _).
      done.
    + exfalso. rewrite INR_IZR_INZ, Z2Nat.id in Hsy.
      2:{ apply le_IZR. lra. }
      assert (Hd : d < IZR (up (d / k)) * k).
      { apply (Rmult_lt_compat_r k) in Hup; [|done].
        unfold Rdiv in Hup. rewrite Rmult_assoc, Rinv_l in Hup by lra.
        lra. }
      rewrite <- Hk0 in Hsy. lra.
  - intros n.
    destruct (ticks_invariant c n Hc Hv Hy) as [_ [[Hsy _]|(_ & _ & Hsb)]];
      lra.
Qed.

End FlatTerrain.

(** *** The spawn finder *)

Lemma flat_grid_rect {F : Type} (e : F) (w h : Z) :
  (0 <= w)%Z -> (0 <= h)%Z -> rect w h (flat_grid e w h).
Proof.
  intros Hw Hh. unfold flat_grid. split.
  - rewrite length_replicate. lia.
  - apply Forall_replicate. rewrite length_replicate. lia.
Qed.

Lemma spawn_at_real (spacing capsuleHeight capsuleRadius e : R) (y x : Z) :
  spawn_at spacing capsuleHeight capsuleRadius e y x
  = spawn_position spacing capsuleHeight capsuleRadius e y x.
Proof.
  unfold spawn_at, spawn_position, clearance.
  cbn [fadd fmul of_int lit real_ops]. f_equal.
  unfold Q2R; cbn [Qnum Qden]. lra.
Qed.

Lemma spawn_fallback_real : spawn_fallback = Vec3 0 50 0.
Proof.
  unfold spawn_fallback. cbn [lit real_ops].
  f_equal; unfold Q2R; cbn [Qnum Qden]; lra.
Qed.



(** *** Conversion to [int] *)

Lemma Int_part_eq (r : R) (n : Z) :
  IZR n <= r < IZR n + 1 -> Int_part r = n.
Proof. intros Hr. symmetry. apply Int_part_spec. lra. Qed.

Lemma Rtrunc_nonneg (r : R) (n : Z) :
  0 <= r -> IZR n <= r < IZR n + 1 -> Rtrunc r = n.
Proof.
  intros H0 Hr. unfold Rtrunc. destruct (Rle_dec 0 r); [|lra].
  by apply Int_part_eq.
Qed.

Lemma Rtrunc_neg (r : R) (n : Z) :
  r < 0 -> IZR n - 1 < r <= IZR n -> Rtrunc r = n.
Proof.
  intros H0 Hr. unfold Rtrunc. destruct (Rle_dec 0 r); [lra|].
  rewrite (Int_part_eq (- r) (- n)); [lia|]. rewrite opp_IZR. lra.
Qed.

(** Truncation and floor differ on negative values only, and those clamp
    to 0 either way. *)
Lemma clamp_trunc_floor (r : R) (n : Z) :
  (0 <= n)%Z -> clamp (Rtrunc r) 0 n = clamp (Int_part r) 0 n.
Proof.
  intros Hn. unfold Rtrunc. destruct (Rle_dec 0 r) as [|Hneg]; [done|].
  destruct (base_Int_part r) as [Hr1 Hr2].
  destruct (base_Int_part (- r)) as [Hm1 Hm2].
  assert (Int_part r < 0)%Z by (apply lt_IZR; lra).
  assert (-1 < Int_part (- r))%Z by (apply lt_IZR; lra).
  unfold clamp.
  repeat match goal with
         | |- context [(?a <? ?b)%Z] => destruct (Z.ltb_spec a b)
         end; lia.
Qed.

Lemma clamp_bounds (v n : Z) :
  (0 <= n)%Z -> (0 <= clamp v 0 n <= n)%Z.
Proof.
  intros Hn. unfold clamp.
  repeat match goal with
         | |- context [(?a <? ?b)%Z] => destruct (Z.ltb_spec a b)
         end; lia.
Qed.

Lemma clamp_id (v n : Z) : (0 <= v <= n)%Z -> clamp v 0 n = v.
Proof.
  intros Hv. unfold clamp.
  repeat match goal with
         | |- context [(?a <? ?b)%Z] => destruct (Z.ltb_spec a b)
         end; lia.
Qed.

(** The conversion is defined on quotients that truncate into [int]. *)
Lemma R_to_int_defined (r : R) :
  -2147483649 < r < 2147483648 -> R_to_int r = Some (Rtrunc r).
Proof.
  intros Hr. unfold R_to_int.
  assert (Hin : in_int (Rtrunc r) = true); [|by rewrite Hin].
  unfold in_int, INT_MIN, INT_MAX. apply andb_true_intro.
  rewrite !Z.leb_le. unfold Rtrunc.
  destruct (Rle_dec 0 r) as [Hpos|Hneg].
  - destruct (base_Int_part r) as [Hr1 Hr2].
    assert (-1 < Int_part r)%Z by (apply lt_IZR; lra).
    assert (Int_part r < 2147483648)%Z by (apply lt_IZR; lra). lia.
  - destruct (base_Int_part (- r)) as [Hm1 Hm2].
    assert (-1 < Int_part (- r))%Z by (apply lt_IZR; lra).
    assert (Int_part (- r) < 2147483649)%Z by (apply lt_IZR; lra). lia.
Qed.

(** *** [getHeight] *)

Lemma getHeight_real (hm : list (list R)) (x z : R) :
  rect GRID_W GRID_H hm ->
  -2147483649 < x / 10 < 2147483648 ->
  -2147483649 < z / 10 < 2147483648 ->
  getHeight hm x z
  = Some (elev_at hm (floor_index z GRID_H) (floor_index x GRID_W)).
Proof.
  intros Hrect Hx Hz. unfold getHeight, query_spacing.
  cbn [fdiv to_int lit real_ops].
  replace (Q2R 10) with 10 by (unfold Q2R; cbn; lra).
  rewrite !R_to_int_defined by done. cbn [mbind option_bind].
  rewrite !clamp_trunc_floor by (unfold GRID_W, GRID_H; lia).
  unfold floor_index.
  apply (rect_cell GRID_W GRID_H); [done|..].
  - pose proof (clamp_bounds (Int_part (x / 10)) (GRID_W - 1)
                  ltac:(unfold GRID_W; lia)). lia.
  - pose proof (clamp_bounds (Int_part (z / 10)) (GRID_H - 1)
                  ltac:(unfold GRID_H; lia)). lia.
Qed.

(** C8, with the bound the conversion to [int] needs: on the 256 by 256
    grid, for coordinates whose quotient by the spacing truncates into
    [int], [getHeight] returns the stored elevation of the cell
    [(clamp(floor(x/10), 0, W-1), clamp(floor(z/10), 0, H-1))]; and at the
    centre [((i+0.5)*10, (j+0.5)*10)] of an in-bounds cell [(i, j)] it
    returns the stored elevation of that cell. *)
Theorem getHeight_nearest_cell (hm : list (list R)) :
  rect GRID_W GRID_H hm ->
  (forall x z,
      -2147483649 < x / 10 < 2147483648 ->
      -2147483649 < z / 10 < 2147483648 ->
      exists e,
        cell hm (floor_index z GRID_H) (floor_index x GRID_W) = Some e
        /\ getHeight hm x z = Some e)
  /\ (forall i j, (0 <= i < GRID_W)%Z -> (0 <= j < GRID_H)%Z ->
        exists e,
          cell hm j i = Some e
          /\ getHeight hm ((IZR i + 1 / 2) * 10) ((IZR j + 1 / 2) * 10)
             = Some e).
Proof.
  intros Hrect. split.
  - intros x z Hx Hz.
    exists (elev_at hm (floor_index z GRID_H) (floor_index x GRID_W)).
    split; [|by apply getHeight_real].
    unfold floor_index. apply (rect_cell GRID_W GRID_H); [done|..].
    + pose proof (clamp_bounds (Int_part (x / 10)) (GRID_W - 1)
                    ltac:(unfold GRID_W; lia)). lia.
    + pose proof (clamp_bounds (Int_part (z / 10)) (GRID_H - 1)
                    ltac:(unfold GRID_H; lia)). lia.
  - intros i j Hi Hj. exists (elev_at hm j i).
    split; [by apply (rect_cell GRID_W GRID_H)|].
    assert (Hi' : 0 <= IZR i <= 255)
      by (split; apply IZR_le; unfold GRID_W in Hi; lia).
    assert (Hj' : 0 <= IZR j <= 255)
      by (split; apply IZR_le; unfold GRID_H in Hj; lia).
    rewrite getHeight_real by (done || lra). unfold floor_index.
    rewrite (Int_part_eq ((IZR i + 1 / 2) * 10 / 10) i) by lra.
    rewrite (Int_part_eq ((IZR j + 1 / 2) * 10 / 10) j) by lra.
    by rewrite !clamp_id by (unfold GRID_W, GRID_H in *; lia).
Qed.

(** The far coordinate [x = 10 * 2^31]: the quotient [x / 10] does not fit
    an [int], so the conversion, and with it the query, is undefined. *)
Lemma getHeight_far_undefined :
  getHeight (flat_grid 0 GRID_W GRID_H) 21474836480 0 = None.
Proof.
  unfold getHeight, query_spacing. cbn [fdiv to_int lit real_ops].
  replace (Q2R 10) with 10 by (unfold Q2R; cbn; lra).
  assert (Hx : R_to_int (21474836480 / 10) = None).
  { unfold R_to_int.
    by rewrite (Rtrunc_nonneg (21474836480 / 10) 2147483648) by lra. }
  by rewrite Hx.
Qed.

(** *** [getInterpolatedHeight] *)

Lemma mix_real (a b t : R) : mix a b t = a * (1 - t) + b * t.
Proof.
  unfold mix. cbn [fadd fsub fmul lit real_ops].
  replace (Q2R 1) with 1 by (unfold Q2R; cbn; lra). done.
Qed.

(** The bilinear query, once the two truncations are known. *)
Lemma getInterpolatedHeight_real (hm : list (list R)) (x z : R) (x0 z0 : Z) :
  rect GRID_W GRID_H hm ->
  Rtrunc (x / 10) = x0 -> Rtrunc (z / 10) = z0 ->
  (-2147483648 <= x0 < 2147483647)%Z ->
  (-2147483648 <= z0 < 2147483647)%Z ->
  let tx := x / 10 - IZR x0 in
  let tz := z / 10 - IZR z0 in
  let cx0 := clamp x0 0 (GRID_W - 1) in
  let cx1 := clamp (x0 + 1) 0 (GRID_W - 1) in
  let cz0 := clamp z0 0 (GRID_H - 1) in
  let cz1 := clamp (z0 + 1) 0 (GRID_H - 1) in
  getInterpolatedHeight hm x z
  = Some (mix (mix (elev_at hm cz0 cx0) (elev_at hm cz0 cx1) tx)
              (mix (elev_at hm cz1 cx0) (elev_at hm cz1 cx1) tx) tz).
Proof.
  intros Hrect Hx0 Hz0 Hxr Hzr tx tz cx0 cx1 cz0 cz1.
  unfold getInterpolatedHeight.
  cbn [fdiv fsub to_int of_int lit real_ops].
  replace (Q2R 10) with 10 by (unfold Q2R; cbn; lra).
  unfold R_to_int. rewrite Hx0, Hz0.
  assert (Hi : forall n, (-2147483648 <= n <= 2147483647)%Z ->
                         in_int n = true).
  { intros n Hn. unfold in_int, INT_MIN, INT_MAX.
    apply andb_true_intro. rewrite !Z.leb_le. lia. }
  rewrite (Hi x0), (Hi z0) by lia. cbn [mbind option_bind].
  unfold int_add. rewrite (Hi (x0 + 1)%Z), (Hi (z0 + 1)%Z) by lia.
  cbn [mbind option_bind]. fold tx tz cx0 cx1 cz0 cz1.
  assert (Hcx0 : (0 <= cx0 < GRID_W)%Z).
  { pose proof (clamp_bounds x0 (GRID_W - 1) ltac:(unfold GRID_W; lia)).
    unfold cx0. lia. }
  assert (Hcx1 : (0 <= cx1 < GRID_W)%Z).
  { pose proof (clamp_bounds (x0 + 1) (GRID_W - 1)
                  ltac:(unfold GRID_W; lia)).
    unfold cx1. lia. }
  assert (Hcz0 : (0 <= cz0 < GRID_H)%Z).
  { pose proof (clamp_bounds z0 (GRID_H - 1) ltac:(unfold GRID_H; lia)).
    unfold cz0. lia. }
  assert (Hcz1 : (0 <= cz1 < GRID_H)%Z).
  { pose proof (clamp_bounds (z0 + 1) (GRID_H - 1)
                  ltac:(unfold GRID_H; lia)).
    unfold cz1. lia. }
  rewrite !(rect_cell GRID_W GRID_H hm) by done.
  reflexivity.
Qed.


(** At every grid point of the terrain of [main] the nearest-cell query
    returns the height of the vertex that [generateVertices] places there. *)
Lemma getHeight_at_vertex (x y : Z) :
  (0 <= x < GRID_W)%Z -> (0 <= y < GRID_H)%Z ->
  getHeight (grid_of (Q2R 0.15) GRID_W GRID_H) (IZR x * 10) (IZR y * 10)
  = Some (elevation (Q2R 0.15) x y).
Proof.
  intros Hx Hy. unfold GRID_W, GRID_H in Hx, Hy.
  assert (Hx' : 0 <= IZR x <= 255) by (split; apply IZR_le; lia).
  assert (Hy' : 0 <= IZR y <= 255) by (split; apply IZR_le; lia).
  rewrite getHeight_real by (by apply grid_of_rect || lra).
  unfold floor_index.
  rewrite (Int_part_eq (IZR x * 10 / 10) x) by lra.
  rewrite (Int_part_eq (IZR y * 10 / 10) y) by lra.
  rewrite !clamp_id by (unfold GRID_W, GRID_H; lia).
  unfold elev_at. by rewrite grid_of_cell by done.
Qed.

(** *** The bilinear query left of the terrain of [main] *)

Lemma main_terrain_grid :
  main_terrain = Some (grid_of (lit 0.15) GRID_W GRID_H).
Proof. unfold main_terrain. by apply generateHeightMap_grid. Qed.

(** Along the row [y = 0] the noise rises from [x = 0] to [x = 1]: at
    [x = 0] every sine is [sin 0], at [x = 1] the six arguments lie in
    [(0, PI)]. *)
Lemma noise_left_edge :
  fractalNoise (IZR 0 * Q2R 0.15) (IZR 0 * Q2R 0.15) 6 (Q2R 0.7)
  < fractalNoise (IZR 1 * Q2R 0.15) (IZR 0 * Q2R 0.15) 6 (Q2R 0.7).
Proof.
  replace (IZR 0 * Q2R 0.15) with 0 by lra.
  replace (IZR 1 * Q2R 0.15) with (15 / 100) by (unfold Q2R; cbn; lra).
  unfold fractalNoise, noise_loop. rewrite !for_range_0, !for_from_iter.
  change (Z.to_nat 6) with 6%nat.
  rewrite !Nat.iter_succ. change (Nat.iter 0 ?f ?x) with x.
  cbn [total maxValue amplitude frequency noise_step noise_init
       fadd fmul fdiv fsin fcos lit real_ops real_trig].
  rewrite !Rmult_0_l, sin_0, cos_0.
  unfold Q2R; cbn [Qnum Qden].
  pose proof PI2_3_2 as Hpi.
  repeat match goal with
         | |- context [sin ?a] =>
             let H := fresh "Hs" in
             assert (H : 0 < sin a) by (apply sin_gt_0; lra);
             generalize dependent (sin a); intros
         end.
  unfold Rdiv. apply Rmult_lt_compat_r.
  - apply Rinv_0_lt_compat. lra.
  - lra.
Qed.

Lemma elevation_left_edge :
  elevation (Q2R 0.15) 0 0 < elevation (Q2R 0.15) 1 0.
Proof.
  unfold elevation. cbn [fsub fmul of_int lit real_ops].
  pose proof noise_left_edge as Hn.
  unfold Q2R in *; cbn [Qnum Qden] in *. lra.
Qed.

(** C2, at a failing input: on the terrain of [main], at [x = -5],
    [z = 0] (left of the terrain, nearest edge cell [(0, 0)]) the
    nearest-cell query returns the elevation [e] of the cell [(0, 0)],
    and the bilinear query returns a value below [e]: it blends the cells
    [(0, 0)] and [(1, 0)] with the weight [tx = -0.5]. *)
Theorem bilinear_left_of_terrain :
  exists hm e v,
    main_terrain = Some hm
    /\ cell hm 0 0 = Some e
    /\ getHeight hm (-5) 0 = Some e
    /\ getInterpolatedHeight hm (-5) 0 = Some v
    /\ v < e.
Proof.
  set (hm := grid_of (Q2R 0.15) GRID_W GRID_H).
  assert (Hrect : rect GRID_W GRID_H hm) by (by apply grid_of_rect).
  assert (Hcell : forall x y, (0 <= x < 256)%Z -> (0 <= y < 256)%Z ->
                    elev_at hm y x = elevation (Q2R 0.15) x y).
  { intros x y Hx Hy. unfold elev_at, hm.
    by rewrite grid_of_cell by done. }
  set (e0 := elevation (Q2R 0.15) 0 0).
  set (e1 := elevation (Q2R 0.15) 1 0).
  exists hm, e0,
    (mix (mix e0 e1 (-5 / 10 - IZR 0))
         (mix (elevation (Q2R 0.15) 0 1) (elevation (Q2R 0.15) 1 1)
              (-5 / 10 - IZR 0))
         (0 / 10 - IZR 0)).
  split; [apply main_terrain_grid|].
  split; [by apply grid_of_cell|].
  split; [|split].
  - rewrite getHeight_real by (done || lra). unfold floor_index.
    rewrite (Int_part_eq (-5 / 10) (-1)) by lra.
    rewrite (Int_part_eq (0 / 10) 0) by lra.
    by rewrite Hcell by done.
  - rewrite (getInterpolatedHeight_real hm _ _ 0 0 Hrect)
      by (try (apply Rtrunc_neg; lra); try (apply Rtrunc_nonneg; lra); lia).
    cbv zeta. by rewrite !Hcell by done.
  - rewrite !mix_real. pose proof elevation_left_edge as Hlt.
    fold e0 e1 in Hlt.
    replace (-5 / 10 - 0) with (- (1 / 2)) by lra.
    replace (0 / 10 - 0) with 0 by lra.
    clearbody e0 e1. lra.
Qed.

(** *** Where the claims fail as stated *)

(** C3, as stated, fails: the capsule created at height 2 with height 4
    over terrain of elevation 0 lands in its first tick (the snap branch
    is taken), and [onGround] and [clamped] are not [true] afterwards. *)
Lemma flags_false_after_snap :
  snaps 1 sea_level low_capsule = true
  /\ ~ (onGround (update 1 sea_level low_capsule) = true
        /\ clamped (update 1 sea_level low_capsule) = true).
Proof.
  split.
  - unfold snaps, low_capsule, sea_level, flat_terrain,
      CapsuleCollider_new, gravity.
    cbn [posX posY posZ velocityY height fadd fsub fmul fdiv fle of_int lit
         real_ops].
    apply Rleb_true. unfold Q2R; cbn [Qnum Qden]. lra.
  - intros [Hg _].
    destruct (update_flags 1 sea_level low_capsule) as [Hon _].
    rewrite Hon in Hg. discriminate Hg.
Qed.

(** C8, as stated for every coordinate pair, fails: at [x = 10 * 2^31] the
    query is undefined, so it does not return the stored elevation of the
    cell [(255, 0)]. *)
Lemma getHeight_not_total :
  ~ (forall (hm : list (list R)) (x z : R),
        rect GRID_W GRID_H hm ->
        exists e,
          cell hm (floor_index z GRID_H) (floor_index x GRID_W) = Some e
          /\ getHeight hm x z = Some e).
Proof.
  intros Hall.
  destruct (Hall (flat_grid 0 GRID_W GRID_H) 21474836480 0)
    as (e & _ & Hget); [by apply flat_grid_rect|].
  rewrite getHeight_far_undefined in Hget. discriminate Hget.
Qed.

End Real.

(** ** Single precision *)

(** One tick of the capsule dropped from height 10: the velocity becomes
    [-9.8f * 0.05f] and the capsule moves down. *)
Example update_binary32 :
  update (lit 0.05) shelf32 capsule32
  = Capsule (S754_zero false) (S754_finite false 10460070 (-20))
            (S754_zero false) (S754_finite true 16441672 (-25))
            (S754_finite false 8388608 (-23)) false false
            (S754_finite false 8388608 (-21)).
Proof. vm_compute. reflexivity. Qed.

(** The spawn point on a level 11 by 11 grid of elevation 3: the cell
    [(5, 5)], at height [3 + 2 + 1 + 0.1f]. *)
Example findSpawnPoint_binary32 :
  findSpawnPoint (flat_grid (lit 3) 11 11) (lit 10) (lit 4) (lit 1)
  = Some (Vec3 (lit 50 : spec_float)
               (fadd (fadd (fadd (lit 3) (lit 2)) (lit 1)) (lit 0.1))
               (lit 50)).
Proof. vm_compute. reflexivity. Qed.

(** The two queries left of the grid, at [x = -5], [z = 0]: the nearest-cell
    query returns the edge cell, 0; the bilinear query returns -0.5. *)
Example queries_left_of_grid_binary32 :
  getHeight ramp32 (lit (-5)) (lit 0) = Some (S754_zero false)
  /\ getInterpolatedHeight ramp32 (lit (-5)) (lit 0) = Some (lit (-0.5)).
Proof. vm_compute. split; reflexivity. Qed.

(** Inside the grid: the nearest-cell query at the centre of the cell
    [(3, 2)], the bilinear query at the midpoint of the cells [(1, 2)] and
    [(2, 2)], and at the cell [(3, 2)] itself. *)
Example queries_inside_grid_binary32 :
  getHeight ramp32 (lit 35) (lit 25) = Some (lit 3)
  /\ getInterpolatedHeight ramp32 (lit 15) (lit 20) = Some (lit 1.5)
  /\ getInterpolatedHeight ramp32 (lit 30) (lit 20) = Some (lit 3).
Proof. vm_compute. repeat split; reflexivity. Qed.

(** The nearest-cell query at [x = 10 * 2^31]: the conversion to [int] is
    undefined. *)
Example getHeight_far_binary32 :
  getHeight ramp32 (lit 21474836480) (lit 0) = None.
Proof. vm_compute. reflexivity. Qed.

(** In single precision that capsule has landed at tick 25 and stays where
    it landed. *)
Lemma capsule32_stays (n : nat) :
  (25 <= n)%nat ->
  ticks n (lit 0.05) shelf32 capsule32 = ticks 25 (lit 0.05) shelf32 capsule32.
Proof.
  intros Hn. induction Hn as [|n Hn IH]; [reflexivity|].
  change (ticks (S n) (lit 0.05) shelf32 capsule32)
    with (update (lit 0.05) shelf32 (ticks n (lit 0.05) shelf32 capsule32)).
  rewrite IH. vm_compute. reflexivity.
Qed.

(** C4, as stated, fails in single precision: the capsule of height 4 at
    rest at height 10 over flat terrain of elevation [0.1f], ticked with
    [dt = 0.05f], has landed after 25 ticks at [posY = 0.1f + 2.0f], which
    rounds down; its bottom [posY - 2.0f] is then below [0.1f]. *)
Lemma capsule_bottom_below_terrain_binary32 :
  velocityY capsule32 = S754_zero false
  /\ flt (lit 0) (lit 0.05 : spec_float) = true
  /\ flt (lit 0.1) (fsub (posY capsule32) (fdiv (height capsule32) (lit 2)))
     = true
  /\ posY (ticks 25 (lit 0.05) shelf32 capsule32)
     = fadd (lit 0.1) (fdiv (height capsule32) (lit 2))
  /\ velocityY (ticks 25 (lit 0.05) shelf32 capsule32) = S754_zero false
  /\ fle (lit 0.1)
         (fsub (posY (ticks 25 (lit 0.05) shelf32 capsule32))
               (fdiv (height capsule32) (lit 2)))
     = false.
Proof. vm_compute. repeat split; reflexivity. Qed.

(** *** Overflow in [fractalNoise]

    [frequency] doubles with every octave, so [x * frequency] leaves the
    range of [float] for a large [x], and for every [x] once [frequency]
    itself has overflowed.  The C library returns NaN for the sine of an
    infinity (C Annex F.10.1.6, IEEE 754), and NaN, once in [total], stays. *)

Section NoiseFrequency.
Context {F : Type} `{FloatOps F} `{TrigOps F}.

Lemma noise_iter_frequency (x y p : F) (n : nat) :
  frequency (Nat.iter n (noise_step x y p) noise_init) = octave_frequency n.
Proof.
  induction n as [|n IH]; [done|].
  change (octave_frequency (S n)) with (fmul (octave_frequency n) (lit 2)).
  rewrite <- IH. reflexivity.
Qed.

End NoiseFrequency.

Section Overflow.
Context (T : TrigOps spec_float).
Implicit Types (x y p : spec_float) (a : noise_acc spec_float).

Lemma fadd_nan_r (x : spec_float) : fadd x S754_nan = S754_nan.
Proof. by destruct x. Qed.

Lemma fmul_nan_r (x : spec_float) : fmul x S754_nan = S754_nan.
Proof. by destruct x. Qed.

Lemma noise_step_nan_total x y p a :
  total a = S754_nan -> total (noise_step x y p a) = S754_nan.
Proof. intros Ht. unfold noise_step. cbn [total]. by rewrite Ht. Qed.

Lemma noise_step_nan_sin x y p a :
  fsin (fmul x (frequency a)) = S754_nan ->
  total (noise_step x y p a) = S754_nan.
Proof.
  intros Hs. unfold noise_step. cbn [total]. rewrite Hs.
  change (fmul (lit 0.5) S754_nan) with S754_nan.
  change (fmul S754_nan (fcos (fmul y (frequency a)))) with S754_nan.
  change (fadd S754_nan (lit 0.5)) with S754_nan.
  by rewrite fmul_nan_r, fadd_nan_r.
Qed.

Lemma noise_iter_nan x y p (k n : nat) :
  (k < n)%nat ->
  fsin (fmul x (octave_frequency k)) = S754_nan ->
  total (Nat.iter n (noise_step x y p) noise_init) = S754_nan.
Proof.
  intros Hk Hs. induction Hk as [|n Hk IH]; rewrite Nat.iter_succ.
  - apply noise_step_nan_sin. by rewrite noise_iter_frequency.
  - by apply noise_step_nan_total.
Qed.

(** If the sine of octave [k] is NaN and the loop reaches that octave, the
    result is NaN. *)
Lemma fractalNoise_nan_octave x y (octaves : Z) p (k : nat) :
  (Z.of_nat k < octaves)%Z ->
  fsin (fmul x (octave_frequency k)) = S754_nan ->
  fractalNoise x y octaves p = S754_nan.
Proof.
  intros Hk Hs. unfold fractalNoise, noise_loop.
  rewrite for_range_0, for_from_iter.
  by rewrite (noise_iter_nan x y p k) by (done || lia).
Qed.

Hypothesis sin_infinity : forall s, fsin (S754_infinity s) = S754_nan.
Hypothesis sin_nan : fsin S754_nan = S754_nan.

(** At octave 129 [frequency] is [0.5f * 2^129], an infinity: with 130
    octaves or more the result is NaN at every [x] and [y], zero included
    ([0 * infinity] is NaN). *)
Lemma fractalNoise_nan_many_octaves x y (octaves : Z) p :
  (130 <= octaves)%Z -> fractalNoise x y octaves p = S754_nan.
Proof.
  intros Ho. apply (fractalNoise_nan_octave x y octaves p 129); [lia|].
  replace (octave_frequency 129) with (S754_infinity false)
    by (vm_compute; reflexivity).
  destruct x as [s|s| |s m e]; cbn; by rewrite ?sin_infinity, ?sin_nan.
Qed.

End Overflow.

(** C6, as stated, fails in single precision: [x = 3e38f] is a finite
    [float], 6 is an octave count [>= 1] and [0.7f] a persistence in
    [(0, 1)]; at the third octave [frequency] is 2 and [x * frequency]
    overflows to infinity, whose sine is NaN.  The result is NaN, which is
    neither [>= 0] nor [<= 1]. *)
Lemma fractalNoise_overflow_nan_binary32 :
  lit 300000000000000000000000000000000000000
  = S754_finite false 14791142 104
  /\ (1 <= 6)%Z
  /\ flt (lit 0) (lit 0.7 : spec_float) = true
  /\ flt (lit 0.7 : spec_float) (lit 1) = true
  /\ forall T : TrigOps spec_float,
       fsin (S754_infinity false) = S754_nan ->
       fractalNoise (lit 300000000000000000000000000000000000000) (lit 0)
                    6 (lit 0.7) = S754_nan
       /\ fle (lit 0)
              (fractalNoise (lit 300000000000000000000000000000000000000)
                            (lit 0) 6 (lit 0.7)) = false
       /\ fle (fractalNoise (lit 300000000000000000000000000000000000000)
                            (lit 0) 6 (lit 0.7)) (lit 1) = false.
Proof.
  split; [vm_compute; reflexivity|]. split; [lia|].
  split; [vm_compute; reflexivity|]. split; [vm_compute; reflexivity|].
  intros T Hs.
  assert (Hn : fractalNoise (lit 300000000000000000000000000000000000000)
                 (lit 0) 6 (lit 0.7) = S754_nan).
  { apply (fractalNoise_nan_octave T _ _ _ _ 2); [lia|].
    replace (fmul _ (octave_frequency 2)) with (S754_infinity false)
      by (vm_compute; reflexivity).
    exact Hs. }
  rewrite Hn. repeat split; vm_compute; reflexivity.
Qed.

(** C7, as stated, fails in single precision: [generateHeightMap(2, 1,
    3e38f)] has positive width and height; its cell [(1, 0)] is
    [(fractalNoise(3e38f, 0) - 0.5f) * 50.0f], which is NaN and so not
    within [[-25, 25]]. *)
Lemma generateHeightMap_overflow_nan_binary32 :
  (0 < 2)%Z /\ (0 < 1)%Z
  /\ forall T : TrigOps spec_float,
       fsin (S754_infinity false) = S754_nan ->
       exists hm,
         generateHeightMap 2 1 (lit 300000000000000000000000000000000000000)
                           [] = Some hm
         /\ cell hm 0 1 = Some S754_nan
         /\ fle (lit (-25)) S754_nan = false
         /\ fle S754_nan (lit 25) = false.
Proof.
  split; [lia|]. split; [lia|]. intros T Hs.
  exists (grid_of (lit 300000000000000000000000000000000000000) 2 1).
  split; [apply generateHeightMap_grid; lia|].
  split; [|split; vm_compute; reflexivity].
  rewrite (grid_of_cell _ 2 1 1 0) by lia. f_equal.
  unfold elevation.
  rewrite (fractalNoise_nan_octave T _ _ _ _ 2); [done|lia|].
  replace (fmul _ (octave_frequency 2)) with (S754_infinity false)
    by (vm_compute; reflexivity).
  exact Hs.
Qed.

(** ** The results at concrete inputs *)

Section Instances.
Local Open Scope R_scope.


(** The capsule created at height 10 over terrain of elevation 0, with
    [dt = 1]. *)
Lemma capsule_settles_high_capsule :
  (0 < 1
   /\ height high_capsule = 4
   /\ velocityY high_capsule = 0
   /\ 0 < posY high_capsule - 4 / 2)
  /\ (exists N : nat, forall n : nat, (N <= n)%nat ->
        posY (ticks n 1 sea_level high_capsule) = 0 + 4 / 2
        /\ velocityY (ticks n 1 sea_level high_capsule) = 0)
  /\ (forall n : nat, 0 <= posY (ticks n 1 sea_level high_capsule) - 4 / 2).
Proof.
  assert (H1 : 0 < 1) by lra.
  assert (H2 : height high_capsule = 4) by reflexivity.
  assert (H3 : velocityY high_capsule = 0) by reflexivity.
  assert (H4 : 0 < posY high_capsule - 4 / 2) by (simpl; lra).
  split; [done|].
  exact (capsule_settles 0 4 1 H1 high_capsule H2 H3 H4).
Defined.


(** The noise at the origin with the default arguments. *)
Lemma fractalNoise_deterministic_unit_origin :
  ((1 <= 6)%Z /\ 0 < 7 / 10 < 1)
  /\ (forall x' y' octaves' persistence',
        x' = 0 -> y' = 0 -> octaves' = 6%Z -> persistence' = 7 / 10 ->
        fractalNoise x' y' octaves' persistence'
        = fractalNoise 0 0 6 (7 / 10))
  /\ 0 <= fractalNoise 0 0 6 (7 / 10) <= 1.
Proof.
  assert (H1 : (1 <= 6)%Z) by lia.
  assert (H2 : 0 < 7 / 10 < 1) by lra.
  split; [done|].
  exact (fractalNoise_deterministic_unit 0 0 6 (7 / 10) H1 H2).
Defined.

(** A grid of 3 rows by 2 columns. *)
Lemma generateHeightMap_spec_small :
  ((0 < 2)%Z /\ (0 < 3)%Z)
  /\ (exists hm,
        generateHeightMap 2 3 (15 / 100) [] = Some hm
        /\ length hm = Z.to_nat 3
        /\ Forall (fun row => length row = Z.to_nat 2) hm
        /\ forall x y, (0 <= x < 2)%Z -> (0 <= y < 3)%Z ->
             exists e,
               cell hm y x = Some e
               /\ e = (fractalNoise (IZR x * (15 / 100)) (IZR y * (15 / 100))
                                    6 (7 / 10) - 1 / 2) * 50
               /\ -25 <= e <= 25)
  /\ forall (F : Type) (O : FloatOps F) (T : TrigOps F)
        (scaleF : F) (hmF : list (list F)),
      exists hm,
        generateHeightMap 2 3 scaleF hmF = Some hm
        /\ length hm = Z.to_nat 3
        /\ Forall (fun row => length row = Z.to_nat 2) hm
        /\ forall x y, (0 <= x < 2)%Z -> (0 <= y < 3)%Z ->
             cell hm y x
             = Some (fmul (fsub (fractalNoise (fmul (of_int x) scaleF)
                                              (fmul (of_int y) scaleF)
                                              6 (lit 0.7))
                                (lit 0.5))
                          (lit 50)).
Proof.
  assert (H1 : (0 < 2)%Z) by lia.
  assert (H2 : (0 < 3)%Z) by lia.
  split; [done|].
  exact (generateHeightMap_spec 2 3 (15 / 100) [] H1 H2).
Defined.

(** The level 256 by 256 grid. *)
Lemma getHeight_nearest_cell_level_grid :
  rect GRID_W GRID_H (flat_grid 0 GRID_W GRID_H)
  /\ (forall x z,
        -2147483649 < x / 10 < 2147483648 ->
        -2147483649 < z / 10 < 2147483648 ->
        exists e,
          cell (flat_grid 0 GRID_W GRID_H)
               (floor_index z GRID_H) (floor_index x GRID_W) = Some e
          /\ getHeight (flat_grid 0 GRID_W GRID_H) x z = Some e)
  /\ (forall i j, (0 <= i < GRID_W)%Z -> (0 <= j < GRID_H)%Z ->
        exists e,
          cell (flat_grid 0 GRID_W GRID_H) j i = Some e
          /\ getHeight (flat_grid 0 GRID_W GRID_H)
                       ((IZR i + 1 / 2) * 10) ((IZR j + 1 / 2) * 10)
             = Some e).
Proof.
  assert (H1 : rect GRID_W GRID_H (flat_grid (0 : R) GRID_W GRID_H))
    by (apply flat_grid_rect; unfold GRID_W, GRID_H; lia).
  split; [done|].
  exact (getHeight_nearest_cell (flat_grid 0 GRID_W GRID_H) H1).
Defined.


End Instances.

(** * More of the program *)

(** ** The capsule over any terrain *)

Section Capsule.
Local Open Scope R_scope.

(** X1: whatever the state, [dt] and the height query, after [update] the
    capsule bottom [posY - height/2] is at or above the terrain height that
    the call queried at [(posX, posZ)]; it is exactly on it, with
    [velocityY = 0], when the snap branch was taken. *)
Theorem update_never_below (dt : R) (q : R -> R -> R) (c : CapsuleCollider R) :
  q (posX c) (posZ c) <= posY (update dt q c) - height (update dt q c) / 2
  /\ (snaps dt q c = true ->
      posY (update dt q c) - height (update dt q c) / 2 = q (posX c) (posZ c)
      /\ velocityY (update dt q c) = 0)
  /\ posX (update dt q c) = posX c
  /\ posZ (update dt q c) = posZ c.
Proof.
  rewrite update_real. cbv zeta. unfold snaps, gravity.
  cbn [fadd fsub fmul fdiv fle lit real_ops].
  replace (Q2R (-9.8)) with (-98 / 10) by (unfold Q2R; cbn; lra).
  replace (Q2R 2) with 2 by (unfold Q2R; cbn; lra).
  unfold Rleb. destruct (Rle_dec _ _) as [Hle|Hn]; cbn.
  - repeat split; try (intros _); lra.
  - split; [lra|]. split; [discriminate|done].
Qed.

Lemma update_keeps_place (dt : R) (q : R -> R -> R) (c : CapsuleCollider R) :
  posX (update dt q c) = posX c
  /\ posZ (update dt q c) = posZ c
  /\ height (update dt q c) = height c.
Proof.
  rewrite update_real. cbv zeta. by destruct (Rle_dec _ _).
Qed.

(** Without horizontal moves the query always answers the same height. *)
Lemma ticks_as_flat (dt : R) (q : R -> R -> R) (c : CapsuleCollider R)
    (n : nat) :
  ticks n dt q c = ticks n dt (flat_terrain (q (posX c) (posZ c))) c
  /\ posX (ticks n dt q c) = posX c
  /\ posZ (ticks n dt q c) = posZ c.
Proof.
  induction n as [|n (IH & IHx & IHz)]; [done|].
  unfold ticks in *. rewrite !Nat.iter_succ.
  destruct (update_keeps_place dt q (Nat.iter n (update dt q) c))
    as (Hx & Hz & _).
  rewrite Hx, Hz, IHx, IHz. split; [|done].
  rewrite <- IH. rewrite !update_real. cbv zeta.
  unfold flat_terrain. by rewrite IHx, IHz.
Qed.

Section AnyStart.
Variables (E Hh dt : R).
Hypothesis dt_pos : 0 < dt.

(** One tick from any state: the capsule lands, or its velocity drops by
    [9.8 * dt] and it ends above the terrain. *)
Lemma update_cases (c : CapsuleCollider R) :
  height c = Hh ->
  height (update dt (flat_terrain E) c) = Hh
  /\ ((posY (update dt (flat_terrain E) c) = E + Hh / 2
       /\ velocityY (update dt (flat_terrain E) c) = 0)
      \/ (velocityY (update dt (flat_terrain E) c)
          = velocityY c - 98 / 10 * dt
          /\ posY (update dt (flat_terrain E) c)
             = posY c + velocityY (update dt (flat_terrain E) c) * dt
          /\ E < posY (update dt (flat_terrain E) c) - Hh / 2)).
Proof.
  intros Hc. rewrite update_real. cbv zeta. unfold flat_terrain.
  destruct (Rle_dec _ _) as [Hle|Hn]; cbn.
  - split; [done|]. left. by rewrite Hc.
  - split; [done|]. right. rewrite Hc in Hn.
    split; [lra|]. split; [done|lra].
Qed.

(** Until it lands the velocity is [v0 - 9.8 * n * dt]. *)
Lemma ticks_velocity (c : CapsuleCollider R) (n : nat) :
  height c = Hh ->
  height (ticks n dt (flat_terrain E) c) = Hh
  /\ ((posY (ticks n dt (flat_terrain E) c) = E + Hh / 2
       /\ velocityY (ticks n dt (flat_terrain E) c) = 0)
      \/ velocityY (ticks n dt (flat_terrain E) c)
         = velocityY c - INR n * (98 / 10 * dt)).
Proof.
  intros Hc. induction n as [|n IH].
  - change (ticks 0 dt (flat_terrain E) c) with c. change (INR 0) with 0.
    split; [done|]. right. lra.
  - unfold ticks in *. rewrite Nat.iter_succ.
    set (s := Nat.iter n (update dt (flat_terrain E)) c) in *.
    destruct IH as [Hs [[Hsy Hsv]|Hsv]].
    + destruct (update_settled E Hh dt s Hs Hsy Hsv) as (? & ? & ?).
      by auto.
    + destruct (update_cases s Hs) as [Hh' [?|(Hv & _ & _)]]; [by auto|].
      split; [done|]. right. rewrite Hv, Hsv, S_INR. lra.
Qed.

(** From a state that is not rising: each tick in the air moves the capsule
    down by at least [9.8 * dt * dt]. *)
Lemma ticks_falling (c : CapsuleCollider R) (n : nat) :
  height c = Hh -> velocityY c <= 0 ->
  height (ticks n dt (flat_terrain E) c) = Hh
  /\ ((posY (ticks n dt (flat_terrain E) c) = E + Hh / 2
       /\ velocityY (ticks n dt (flat_terrain E) c) = 0)
      \/ (velocityY (ticks n dt (flat_terrain E) c) <= 0
          /\ posY (ticks n dt (flat_terrain E) c)
             <= posY c - INR n * (98 / 10 * dt * dt)
          /\ ((1 <= n)%nat ->
              E < posY (ticks n dt (flat_terrain E) c) - Hh / 2))).
Proof.
  intros Hc Hv. induction n as [|n IH].
  - change (ticks 0 dt (flat_terrain E) c) with c. change (INR 0) with 0.
    split; [done|]. right. split; [done|]. split; [lra|lia].
  - unfold ticks in *. rewrite Nat.iter_succ.
    set (s := Nat.iter n (update dt (flat_terrain E)) c) in *.
    destruct IH as [Hs [[Hsy Hsv]|(Hsv & Hsy & _)]].
    + destruct (update_settled E Hh dt s Hs Hsy Hsv) as (? & ? & ?).
      by auto.
    + destruct (update_falling E Hh dt dt_pos s Hs Hsv)
        as [Hh' [?|(? & ? & ?)]]; [by auto|].
      split; [done|]. right. rewrite S_INR. split; [done|].
      split; [lra|done].
Qed.

Lemma falling_settles (c : CapsuleCollider R) :
  height c = Hh -> velocityY c <= 0 ->
  exists N : nat, forall n : nat, (N <= n)%nat ->
    posY (ticks n dt (flat_terrain E) c) = E + Hh / 2
    /\ velocityY (ticks n dt (flat_terrain E) c) = 0.
Proof.
  intros Hc Hv.
  remember (98 / 10 * dt * dt) as k eqn:Hk0.
  assert (Hk : 0 < k) by (subst k; nra).
  remember (Rmax 1 ((posY c - Hh / 2 - E) / k)) as r eqn:Hr0.
  assert (Hr1 : 1 <= r) by (subst r; apply Rmax_l).
  assert (Hr2 : (posY c - Hh / 2 - E) / k <= r) by (subst r; apply Rmax_r).
  pose proof (archimed r) as [Hup _].
  assert (Hupk : posY c - Hh / 2 - E < IZR (up r) * k).
  { apply (Rmult_le_compat_r k) in Hr2; [|lra].
    unfold Rdiv in Hr2. rewrite Rmult_assoc, Rinv_l, Rmult_1_r in Hr2 by lra.
    apply (Rmult_lt_compat_r k) in Hup; [|done]. lra. }
  assert (Hupz : (1 <= up r)%Z).
  { assert (0 < up r)%Z by (apply lt_IZR; lra). lia. }
  exists (Z.to_nat (up r)). intros n Hn.
  destruct (ticks_falling c (Z.to_nat (up r)) Hc Hv)
    as [Hs [[Hsy Hsv]|(_ & Hsy & Hsb)]].
  - destruct (ticks_settled_stays E Hh dt c _ n Hs Hsy Hsv Hn)
      as (? & ? & _). done.
  - exfalso. specialize (Hsb ltac:(lia)).
    rewrite INR_IZR_INZ, Z2Nat.id in Hsy by lia.
    rewrite <- Hk0 in Hsy. lra.
Qed.

Lemma any_start_settles (c : CapsuleCollider R) :
  height c = Hh ->
  exists N : nat, forall n : nat, (N <= n)%nat ->
    posY (ticks n dt (flat_terrain E) c) = E + Hh / 2
    /\ velocityY (ticks n dt (flat_terrain E) c) = 0.
Proof.
  intros Hc.
  remember (98 / 10 * dt) as g eqn:Hg0.
  assert (Hg : 0 < g) by (subst g; lra).
  remember (Rmax 0 (velocityY c / g)) as r eqn:Hr0.
  assert (Hr1 : 0 <= r) by (subst r; apply Rmax_l).
  assert (Hr2 : velocityY c / g <= r) by (subst r; apply Rmax_r).
  pose proof (archimed r) as [Hup _].
  assert (Hupg : velocityY c < IZR (up r) * g).
  { apply (Rmult_le_compat_r g) in Hr2; [|lra].
    unfold Rdiv in Hr2. rewrite Rmult_assoc, Rinv_l, Rmult_1_r in Hr2 by lra.
    apply (Rmult_lt_compat_r g) in Hup; [|done]. lra. }
  assert (Hupz : (0 <= up r)%Z).
  { assert (0 < up r)%Z by (apply lt_IZR; lra). lia. }
  set (N1 := Z.to_nat (up r)).
  set (s := ticks N1 dt (flat_terrain E) c).
  assert (Hs : height s = Hh /\ velocityY s <= 0).
  { destruct (ticks_velocity c N1 Hc) as [Hs [[_ Hsv]|Hsv]];
      fold s in Hs, Hsv; (split; [done|]).
    - lra.
    - rewrite Hsv. unfold N1. rewrite INR_IZR_INZ, Z2Nat.id by lia.
      rewrite <- Hg0. lra. }
  destruct Hs as [Hsh Hsv].
  destruct (falling_settles s Hsh Hsv) as [N2 HN2].
  exists (N1 + N2)%nat. intros n Hn.
  replace n with ((n - N1) + N1)%nat by lia.
  unfold ticks in *. rewrite Nat.iter_add. apply HN2. lia.
Qed.

End AnyStart.

(** X2: over any terrain and from any state (any height, any vertical
    velocity, also upward, also below the surface), a capsule that is only
    ticked with a fixed [dt > 0], and not moved horizontally, comes to rest
    after finitely many ticks on the terrain height under it:
    [posY = q (posX, posZ) + height/2] and [velocityY = 0] from then on. *)
Theorem capsule_comes_to_rest (dt : R) (q : R -> R -> R)
    (c : CapsuleCollider R) :
  0 < dt ->
  exists N : nat, forall n : nat, (N <= n)%nat ->
    posY (ticks n dt q c) = q (posX c) (posZ c) + height c / 2
    /\ velocityY (ticks n dt q c) = 0.
Proof.
  intros Hdt.
  destruct (any_start_settles (q (posX c) (posZ c)) (height c) dt Hdt c eq_refl)
    as [N HN].
  exists N. intros n Hn.
  destruct (ticks_as_flat dt q c n) as [-> _]. by apply HN.
Qed.

End Capsule.

(** ** The index buffer *)

Lemma in_int_intro (n : Z) :
  (-2147483648 <= n <= 2147483647)%Z -> in_int n = true.
Proof.
  intros Hn. unfold in_int, INT_MIN, INT_MAX.
  apply andb_true_intro. rewrite !Z.leb_le. lia.
Qed.

Lemma to_uint_small (n : Z) : (0 <= n < 4294967296)%Z -> to_uint n = n.
Proof. intros Hn. unfold to_uint. by apply Z.mod_small. Qed.

(** The inner loop of [generateIndices] pushes the pairs of the columns
    [k], [k+1], ... *)
Lemma strip_loop (w y : Z) (n : nat) :
  (0 <= y)%Z -> (0 <= w)%Z -> (y + 1 <= 2147483647)%Z ->
  ((y + 2) * w <= 2147483648)%Z ->
  forall (k : nat) (strip : list Z),
    (Z.of_nat k + Z.of_nat n <= w)%Z ->
    for_fromM n (Z.of_nat k) (fun x strip =>
      yw ← int_mul y w;
      v0 ← int_add yw x;
      y1 ← int_add y 1;
      y1w ← int_mul y1 w;
      v1 ← int_add y1w x;
      let strip := strip ++ [to_uint v0] in
      Some (strip ++ [to_uint v1])) strip
    = Some (strip
            ++ mjoin ((fun x => [y * w + x; (y + 1) * w + x]%Z)
                      <$> seqZ (Z.of_nat k) (Z.of_nat n))).
Proof.
  intros Hy Hw Hy1 Hyw.
  match goal with
  | |- context [for_fromM _ _ ?b _] => set (body := b)
  end.
  assert (Hbody : forall x strip, (0 <= x < w)%Z ->
            body x strip = Some (strip ++ [y * w + x; (y + 1) * w + x]%Z)).
  { intros x strip Hx. unfold body, int_mul, int_add.
    rewrite (in_int_intro (y * w)) by nia. cbn [mbind option_bind].
    rewrite (in_int_intro (y * w + x)) by nia. cbn [mbind option_bind].
    rewrite (in_int_intro (y + 1)) by lia. cbn [mbind option_bind].
    rewrite (in_int_intro ((y + 1) * w)) by nia. cbn [mbind option_bind].
    rewrite (in_int_intro ((y + 1) * w + x)) by nia.
    cbn [mbind option_bind]. rewrite !to_uint_small by nia.
    by rewrite <- app_assoc. }
  clearbody body. induction n as [|n IH]; intros k strip Hk.
  - cbn [for_fromM]. rewrite seqZ_nil by lia. cbn. by rewrite app_nil_r.
  - cbn [for_fromM]. rewrite Hbody by lia. cbn [mbind option_bind].
    replace (Z.of_nat k + 1)%Z with (Z.of_nat (S k)) by lia.
    rewrite IH by lia.
    rewrite (seqZ_cons (Z.of_nat k)) by lia. csimpl.
    rewrite <- !app_assoc. cbn [app].
    replace (Z.succ (Z.of_nat k)) with (Z.of_nat (S k)) by lia.
    by replace (Z.pred (Z.of_nat (S n))) with (Z.of_nat n) by lia.
Qed.

Lemma strips_loop (w h : Z) (n : nat) :
  (0 <= w)%Z -> (h <= 2147483647)%Z -> (w * h <= 2147483648)%Z ->
  forall (k : nat) (strips : list (list Z)),
    (Z.of_nat k + Z.of_nat n <= h - 1)%Z ->
    for_fromM n (Z.of_nat k) (fun y strips =>
      strip ← for_rangeM 0 w (fun x strip =>
        yw ← int_mul y w;
        v0 ← int_add yw x;
        y1 ← int_add y 1;
        y1w ← int_mul y1 w;
        v1 ← int_add y1w x;
        let strip := strip ++ [to_uint v0] in
        Some (strip ++ [to_uint v1])) [];
      Some (strips ++ [strip])) strips
    = Some (strips ++ (strip_of w <$> seqZ (Z.of_nat k) (Z.of_nat n))).
Proof.
  intros Hw Hh Hwh.
  match goal with
  | |- context [for_fromM _ _ ?b _] => set (body := b)
  end.
  assert (Hbody : forall y strips, (0 <= y)%Z -> (y + 1 < h)%Z ->
            body y strips = Some (strips ++ [strip_of w y])).
  { intros y strips Hy0 Hy1. unfold body. rewrite for_rangeM_0.
    rewrite (strip_loop w y (Z.to_nat w)) by nia.
    cbn [mbind option_bind app]. unfold strip_of.
    by rewrite Z2Nat.id by done. }
  clearbody body. induction n as [|n IH]; intros k strips Hk.
  - cbn [for_fromM]. rewrite (seqZ_nil _ (Z.of_nat 0)) by lia. cbn.
    by rewrite app_nil_r.
  - cbn [for_fromM]. rewrite Hbody by lia.
    cbn [mbind option_bind].
    replace (Z.of_nat k + 1)%Z with (Z.of_nat (S k)) by lia.
    rewrite IH by lia.
    rewrite (seqZ_cons (Z.of_nat k) (Z.of_nat (S n))) by lia. csimpl.
    rewrite <- !app_assoc. cbn [app].
    replace (Z.succ (Z.of_nat k)) with (Z.of_nat (S k)) by lia.
    by replace (Z.pred (Z.of_nat (S n))) with (Z.of_nat n) by lia.
Qed.

Lemma generateIndices_closed (strips : list (list Z)) (w h : Z) :
  (0 <= w)%Z -> (1 <= h <= 2147483647)%Z -> (w * h <= 2147483648)%Z ->
  generateIndices strips w h = Some (strips ++ strips_of w h).
Proof.
  intros Hw Hh Hwh. unfold generateIndices, int_sub.
  rewrite (in_int_intro (h - 1)) by lia. cbn [mbind option_bind].
  rewrite for_rangeM_0.
  rewrite (strips_loop w h (Z.to_nat (h - 1))) by lia.
  unfold strips_of. by rewrite Z2Nat.id by lia.
Qed.

Lemma strip_of_length (w y : Z) :
  length (strip_of w y) = (Z.to_nat w * 2)%nat.
Proof.
  unfold strip_of. rewrite (length_mjoin_blocks _ 2) by done.
  by rewrite length_seqZ.
Qed.

Lemma strip_of_lookup (w y x : Z) (j : nat) (v : Z) :
  (0 <= x < w)%Z ->
  [y * w + x; (y + 1) * w + x]%Z !! j = Some v ->
  strip_of w y !! (Z.to_nat x * 2 + j)%nat = Some v.
Proof.
  intros Hx Hv. unfold strip_of.
  apply (lookup_mjoin_blocks (fun x => [y * w + x; (y + 1) * w + x]%Z) 2);
    [done|done| |done].
  by apply lookup_lt_Some in Hv.
Qed.

Lemma strip_of_bounds (w h y : Z) :
  (0 <= y)%Z -> (y + 1 < h)%Z ->
  Forall (fun i => 0 <= i < w * h)%Z (strip_of w y).
Proof.
  intros Hy Hh. unfold strip_of. apply Forall_forall. intros i Hi.
  apply list_elem_of_join in Hi as (blk & Hi & Hblk).
  apply list_elem_of_fmap in Hblk as (x & -> & Hx).
  apply elem_of_seqZ in Hx.
  apply elem_of_cons in Hi as [->|Hi]; [nia|].
  apply elem_of_cons in Hi as [->|Hi]; [nia|].
  by apply elem_of_nil in Hi.
Qed.

(** X3: for a grid of [w] columns and [h >= 1] rows whose vertex count fits
    an [int] ([w * h <= 2^31]), [generateIndices] is defined and appends
    exactly [h - 1] strips of [2 * w] indices each; every index it emits is
    a vertex number of the grid, in [[0, w * h)]. *)
Theorem generateIndices_spec (strips : list (list Z)) (w h : Z) :
  (0 <= w)%Z -> (1 <= h <= 2147483647)%Z -> (w * h <= 2147483648)%Z ->
  exists new,
    generateIndices strips w h = Some (strips ++ new)
    /\ Z.of_nat (length new) = (h - 1)%Z
    /\ Forall (fun strip => Z.of_nat (length strip) = (2 * w)%Z) new
    /\ Forall (Forall (fun i => 0 <= i < w * h)%Z) new.
Proof.
  intros Hw Hh Hwh. exists (strips_of w h).
  split; [by apply generateIndices_closed|]. unfold strips_of.
  split; [rewrite length_fmap, length_seqZ; lia|]. split.
  - apply Forall_fmap, Forall_forall. intros y _. cbn.
    rewrite strip_of_length. lia.
  - apply Forall_fmap, Forall_forall. intros y Hy. cbn.
    apply elem_of_seqZ in Hy. apply strip_of_bounds; lia.
Qed.

Section IndexedVertices.
Context {F : Type} `{FloatOps F} `{TrigOps F}.
Local Open Scope fl_scope.

Lemma vertices_of_vertex (scale : F) (w h x y : Z) :
  (0 <= x < w)%Z -> (0 <= y < h)%Z ->
  vertex (vertices_of scale w h) (y * w + x)
  = Some (Vec3 (of_int x * lit 10) (elevation scale x y) (of_int y * lit 10)).
Proof.
  intros Hx Hy. unfold vertex.
  assert (E0 : vget (vertices_of scale w h) (3 * (y * w + x))
               = Some (of_int x * lit 10)).
  { rewrite <- (Z.add_0_r (3 * (y * w + x))).
    by apply (vertices_of_lookup scale w h x y 0). }
  assert (E1 : vget (vertices_of scale w h) (3 * (y * w + x) + 1)
               = Some (elevation scale x y))
    by (by apply (vertices_of_lookup scale w h x y 1)).
  assert (E2 : vget (vertices_of scale w h) (3 * (y * w + x) + 2)
               = Some (of_int y * lit 10))
    by (by apply (vertices_of_lookup scale w h x y 2)).
  by rewrite E0, E1, E2.
Qed.

(** X4: the strips of [generateIndices] address the vertices of
    [generateVertices] (same [w] and [h], vertex count within [int]): in
    strip [y], the entries [2x] and [2x+1] are the numbers of the vertices
    that [generateVertices] emitted for the grid points [(x, y)] and
    [(x, y+1)], so each strip zigzags between two neighbouring rows. *)
Theorem strips_address_vertices (w h : Z) (scale : F) (x y : Z) :
  (0 <= x < w)%Z -> (0 <= y)%Z -> (y + 1 < h)%Z ->
  (h <= 2147483647)%Z -> (w * h <= 2147483648)%Z ->
  exists strips strip i0 i1,
    generateIndices [] w h = Some strips
    /\ strips !! Z.to_nat y = Some strip
    /\ strip !! Z.to_nat (2 * x) = Some i0
    /\ strip !! Z.to_nat (2 * x + 1) = Some i1
    /\ vertex (generateVertices [] w h scale) i0
       = Some (Vec3 (of_int x * lit 10) (elevation scale x y)
                    (of_int y * lit 10))
    /\ vertex (generateVertices [] w h scale) i1
       = Some (Vec3 (of_int x * lit 10) (elevation scale x (y + 1))
                    (of_int (y + 1) * lit 10)).
Proof.
  intros Hx Hy0 Hy1 Hh Hwh.
  exists (strips_of w h), (strip_of w y), (y * w + x)%Z, ((y + 1) * w + x)%Z.
  split; [by rewrite generateIndices_closed by lia|].
  split.
  { unfold strips_of. rewrite list_lookup_fmap, lookup_seqZ_lt by lia.
    cbn. do 2 f_equal. lia. }
  split.
  { replace (Z.to_nat (2 * x)) with (Z.to_nat x * 2 + 0)%nat by lia.
    by apply strip_of_lookup. }
  split.
  { replace (Z.to_nat (2 * x + 1)) with (Z.to_nat x * 2 + 1)%nat by lia.
    by apply strip_of_lookup. }
  rewrite generateVertices_closed. cbn [app].
  split; apply vertices_of_vertex; lia.
Qed.

End IndexedVertices.

(** The flattening loop of [main], while the offsets do not wrap. *)
Lemma flatten_strips_closed (strips : list (list Z)) :
  (Z.of_nat (length (mjoin strips)) < 4294967296)%Z ->
  flatten_strips strips
  = (mjoin strips,
     (fun i => Z.of_nat (length (mjoin (take i strips))))
       <$> seq 0 (length strips),
     Z.of_nat (length (mjoin strips))).
Proof.
  unfold flatten_strips.
  induction strips as [|strip strips IH] using rev_ind; [done|].
  intros Hlen. rewrite join_app, length_app in Hlen. cbn in Hlen.
  rewrite app_nil_r in Hlen.
  rewrite foldl_snoc, IH by lia. unfold flatten_step.
  rewrite join_app. cbn [mjoin list_join]. rewrite app_nil_r.
  f_equal; [f_equal|].
  - rewrite length_app. cbn [length]. rewrite Nat.add_1_r, seq_S.
    rewrite fmap_app. cbn [fmap list_fmap]. f_equal.
    + apply list_fmap_ext. intros i j Hj.
      apply lookup_seq in Hj as [-> Hj]. cbn.
      by rewrite take_app_le by lia.
    + cbn. by rewrite take_app_length.
  - unfold uint_add. rewrite to_uint_small by lia.
    rewrite Z.mod_small by lia. rewrite length_app. lia.
Qed.

(** X5: as long as the total number of indices is below [2^32] (the
    [unsigned int] offset does not wrap), the loop of [main] that flattens
    the strips makes [allIndices] the concatenation of the strips and records
    one offset per strip, and strip [i] is found again in [allIndices] at its
    recorded offset: the slice of its length starting there is the strip. *)
Theorem flatten_strips_slices (strips : list (list Z)) :
  (Z.of_nat (length (mjoin strips)) < 4294967296)%Z ->
  let '(allIndices, stripOffsets, _) := flatten_strips strips in
  allIndices = mjoin strips
  /\ length stripOffsets = length strips
  /\ forall (i : nat) (strip : list Z),
       strips !! i = Some strip ->
       exists offset,
         stripOffsets !! i = Some offset
         /\ take (length strip) (drop (Z.to_nat offset) allIndices) = strip.
Proof.
  intros Hlen. rewrite flatten_strips_closed by done.
  split; [done|]. split; [by rewrite length_fmap, length_seq|].
  intros i strip Hi.
  exists (Z.of_nat (length (mjoin (take i strips)))). split.
  - rewrite list_lookup_fmap, lookup_seq_lt; [done|].
    by eapply lookup_lt_Some.
  - rewrite Nat2Z.id.
    rewrite <- (take_drop_middle strips i strip Hi) at 2.
    rewrite join_app. cbn [mjoin list_join].
    by rewrite drop_app_length, take_app_length.
Qed.

(** ** Moving and ticking *)

Section MoveUpdate.
Context {F : Type} `{FloatOps F}.
Local Open Scope fl_scope.

(** X6: [moveHorizontal] and [update] may be applied in either order as far
    as [posX] and [posZ] go; the whole resulting states are equal whenever
    the height query answers the same at the old and at the new place (for
    instance over flat terrain).  This holds in every arithmetic. *)
Theorem move_update_commute (dt dx dz : F) (q : F -> F -> F)
    (c : CapsuleCollider F) :
  posX (update dt q (moveHorizontal dx dz c))
    = posX (moveHorizontal dx dz (update dt q c))
  /\ posZ (update dt q (moveHorizontal dx dz c))
      = posZ (moveHorizontal dx dz (update dt q c))
  /\ (q (posX c + dx) (posZ c + dz) = q (posX c) (posZ c) ->
      update dt q (moveHorizontal dx dz c)
      = moveHorizontal dx dz (update dt q c)).
Proof.
  unfold update, moveHorizontal.
  cbn [set_posX set_posZ set_velocityY posX posY posZ velocityY height
       capsuleRadius onGround clamped].
  split; [by destruct (_ <=? _), (_ <=? _)|].
  split; [by destruct (_ <=? _), (_ <=? _)|].
  intros ->. by destruct (_ <=? _).
Qed.

End MoveUpdate.

(** ** The height queries, axis by axis *)

Section Queries.
Local Open Scope R_scope.

Lemma Rtrunc_bounds (r : R) :
  (0 <= r -> IZR (Rtrunc r) <= r < IZR (Rtrunc r) + 1)
  /\ (r < 0 -> IZR (Rtrunc r) - 1 < r <= IZR (Rtrunc r)).
Proof.
  unfold Rtrunc. destruct (Rle_dec 0 r) as [Hpos|Hneg].
  - split; [|lra]. intros _. destruct (base_Int_part r). lra.
  - split; [lra|]. intros _. destruct (base_Int_part (- r)).
    rewrite opp_IZR. lra.
Qed.

Lemma getInterpolatedHeight_axes (hm : list (list R)) (x z : R) :
  rect GRID_W GRID_H hm ->
  -2147483649 < x / 10 < 2147483647 ->
  -2147483649 < z / 10 < 2147483647 ->
  getInterpolatedHeight hm x z
  = Some (blend_axis
            (fun cz => blend_axis (fun cx => elev_at hm cz cx) (x / 10))
            (z / 10)).
Proof.
  intros Hrect Hx Hz.
  assert (Hr : forall r, -2147483649 < r < 2147483647 ->
                 (-2147483648 <= Rtrunc r < 2147483647)%Z).
  { intros r Hr. destruct (Rtrunc_bounds r) as [Hp Hn].
    destruct (Rle_dec 0 r) as [H0|H0].
    - specialize (Hp H0). split; [apply le_IZR; lra|apply lt_IZR; lra].
    - specialize (Hn ltac:(lra)).
      split; [|apply lt_IZR; lra].
      assert (-2147483649 < Rtrunc (r))%Z by (apply lt_IZR; lra). lia. }
  rewrite (getInterpolatedHeight_real hm x z _ _ Hrect eq_refl eq_refl)
    by (by apply Hr).
  reflexivity.
Qed.

Lemma mix_same (a t : R) : mix a a t = a.
Proof. rewrite mix_real. lra. Qed.

Lemma mix_zero (a b : R) : mix a b 0 = a.
Proof. rewrite mix_real. lra. Qed.

(** Along one axis, a position at least one cell before the grid or beyond
    its last cell blends a cell with itself. *)
Lemma blend_axis_outside (g : Z -> R) (r : R) :
  (r <= -1 -> blend_axis g r = g 0%Z)
  /\ (255 <= r -> blend_axis g r = g 255%Z).
Proof.
  destruct (Rtrunc_bounds r) as [Hp Hn]. unfold blend_axis. split; intros Hr.
  - specialize (Hn ltac:(lra)).
    assert (Rtrunc r < 0)%Z by (apply lt_IZR; lra).
    unfold clamp.
    destruct (Z.ltb_spec (Rtrunc r) 0); [|lia].
    destruct (Z.ltb_spec (Rtrunc r + 1) 0).
    + apply mix_same.
    + destruct (Z.ltb_spec 255 (Rtrunc r + 1)); [lia|].
      replace (Rtrunc r + 1)%Z with 0%Z by lia. apply mix_same.
  - specialize (Hp ltac:(lra)).
    assert (254 < Rtrunc r)%Z by (apply lt_IZR; lra).
    unfold clamp.
    destruct (Z.ltb_spec (Rtrunc r) 0); [lia|].
    destruct (Z.ltb_spec (Rtrunc r + 1) 0); [lia|].
    destruct (Z.ltb_spec 255 (Rtrunc r + 1)); [|lia].
    destruct (Z.ltb_spec 255 (Rtrunc r)).
    + apply mix_same.
    + replace (Rtrunc r) with 255%Z by lia. apply mix_same.
Qed.

Lemma blend_axis_edge (g : Z -> R) :
  blend_axis g 0 = g 0%Z /\ blend_axis g 255 = g 255%Z.
Proof.
  split.
  - unfold blend_axis. rewrite (Rtrunc_nonneg 0 0) by lra.
    cbn. replace (0 - 0) with 0 by lra. apply mix_zero.
  - apply blend_axis_outside. lra.
Qed.

Lemma extent_clamp_cases (v : R) :
  (v <= 0 /\ extent_clamp v = 0)
  \/ (0 <= v <= 2550 /\ extent_clamp v = v)
  \/ (2550 <= v /\ extent_clamp v = 2550).
Proof.
  unfold extent_clamp, Rmax, Rmin.
  destruct (Rle_dec v 2550), (Rle_dec 0 v), (Rle_dec 0 2550); lra.
Qed.

Lemma blend_axis_clamped (g : Z -> R) (v : R) :
  v <= -10 \/ 0 <= v ->
  blend_axis g (v / 10) = blend_axis g (extent_clamp v / 10).
Proof.
  intros Hv.
  destruct (blend_axis_edge g) as [E0 E255].
  destruct (extent_clamp_cases v) as [[H ->]|[[H ->]|[H ->]]]; [|done|].
  - replace (0 / 10) with 0 by lra. rewrite E0.
    destruct Hv as [Hv|Hv].
    + apply blend_axis_outside. lra.
    + replace v with 0 by lra. by replace (0 / 10) with 0 by lra.
  - replace (2550 / 10) with 255 by lra. rewrite E255.
    apply blend_axis_outside. lra.
Qed.

(** X7: on the 256 by 256 grid, for coordinates whose quotients by the
    spacing fit an [int], the nearest-cell query [getHeight] returns what it
    returns at the coordinates clamped into the extent of the terrain,
    [[0, 2550]] on each axis: outside the terrain it answers with the
    nearest edge cell. *)
Theorem getHeight_clamps (hm : list (list R)) (x z : R) :
  rect GRID_W GRID_H hm ->
  -2147483649 < x / 10 < 2147483648 ->
  -2147483649 < z / 10 < 2147483648 ->
  getHeight hm x z = getHeight hm (extent_clamp x) (extent_clamp z)
  /\ is_Some (getHeight hm x z).
Proof.
  intros Hrect Hx Hz.
  assert (Hidx : forall v, floor_index (extent_clamp v) 256 = floor_index v 256).
  { intros v. unfold floor_index.
    destruct (base_Int_part (v / 10)) as [Hv1 Hv2].
    destruct (extent_clamp_cases v) as [[H ->]|[[H ->]|[H ->]]]; [|done|].
    - rewrite (Int_part_eq (0 / 10) 0) by lra.
      destruct (Rle_dec 0 v) as [H0|H0].
      + by replace v with 0 by lra; rewrite (Int_part_eq (0 / 10) 0) by lra.
      + assert (Int_part (v / 10) < 0)%Z by (apply lt_IZR; lra).
        unfold clamp.
        repeat match goal with
               | |- context [(?a <? ?b)%Z] => destruct (Z.ltb_spec a b)
               end; lia.
    - rewrite (Int_part_eq (2550 / 10) 255) by lra.
      assert (254 < Int_part (v / 10))%Z by (apply lt_IZR; lra).
      unfold clamp.
      repeat match goal with
             | |- context [(?a <? ?b)%Z] => destruct (Z.ltb_spec a b)
             end; lia. }
  assert (Hc : forall v, -2147483649 < extent_clamp v / 10 < 2147483648).
  { intros v.
    destruct (extent_clamp_cases v) as [[H ->]|[[H ->]|[H ->]]]; lra. }
  rewrite !getHeight_real by done. unfold GRID_W, GRID_H.
  by rewrite !Hidx.
Qed.

(** X8: for coordinates that are not in the last cell width before the
    grid ([x <= -10] or [0 <= x], and the same for [z]), the bilinear query
    [getInterpolatedHeight] returns what it returns at the coordinates
    clamped into the extent [[0, 2550]].  (For [-10 < x < 0] it does not:
    there the query extrapolates.) *)
Theorem getInterpolatedHeight_clamps (hm : list (list R)) (x z : R) :
  rect GRID_W GRID_H hm ->
  -2147483649 < x / 10 < 2147483647 ->
  -2147483649 < z / 10 < 2147483647 ->
  x <= -10 \/ 0 <= x -> z <= -10 \/ 0 <= z ->
  getInterpolatedHeight hm x z
  = getInterpolatedHeight hm (extent_clamp x) (extent_clamp z)
  /\ is_Some (getInterpolatedHeight hm x z).
Proof.
  intros Hrect Hx Hz Hxo Hzo.
  assert (Hc : forall v, -2147483649 < extent_clamp v / 10 < 2147483647).
  { intros v.
    destruct (extent_clamp_cases v) as [[H ->]|[[H ->]|[H ->]]]; lra. }
  rewrite !getInterpolatedHeight_axes by done. split; [|done]. f_equal.
  rewrite <- (blend_axis_clamped _ z) by done.
  unfold blend_axis at 1 3.
  by rewrite <- !(blend_axis_clamped _ x) by done.
Qed.

Lemma mix_between (a b t lo hi : R) :
  lo <= a <= hi -> lo <= b <= hi -> 0 <= t <= 1 ->
  lo <= mix a b t <= hi.
Proof. intros Ha Hb Ht. rewrite mix_real. nra. Qed.

Lemma blend_axis_between (g : Z -> R) (r lo hi : R) :
  (forall i, (0 <= i <= 255)%Z -> lo <= g i <= hi) ->
  r <= -1 \/ 0 <= r ->
  lo <= blend_axis g r <= hi.
Proof.
  intros Hg [Hr|Hr].
  - destruct (blend_axis_outside g r) as [Ho _]. rewrite Ho by done.
    apply Hg. lia.
  - unfold blend_axis. destruct (Rtrunc_bounds r) as [Hp _].
    specialize (Hp Hr).
    apply mix_between; [apply Hg..|lra];
      (pose proof (clamp_bounds (Rtrunc r) 255);
       pose proof (clamp_bounds (Rtrunc r + 1) 255); lia).
Qed.

(** X9: when every cell of the 256 by 256 grid lies in [[lo, hi]], so does
    the result of the bilinear query at every coordinate pair outside the
    last cell width before the grid ([x <= -10] or [0 <= x], same for [z])
    whose quotients fit an [int]: there the query is a convex blend of
    cells. *)
Theorem getInterpolatedHeight_between (hm : list (list R)) (lo hi x z : R) :
  rect GRID_W GRID_H hm ->
  (forall i j, (0 <= i < GRID_W)%Z -> (0 <= j < GRID_H)%Z ->
               lo <= elev_at hm j i <= hi) ->
  -2147483649 < x / 10 < 2147483647 ->
  -2147483649 < z / 10 < 2147483647 ->
  x <= -10 \/ 0 <= x -> z <= -10 \/ 0 <= z ->
  exists v, getInterpolatedHeight hm x z = Some v /\ lo <= v <= hi.
Proof.
  intros Hrect Hcells Hx Hz Hxo Hzo.
  rewrite getInterpolatedHeight_axes by done.
  eexists. split; [done|].
  apply blend_axis_between; [|lra]. intros j Hj.
  apply blend_axis_between; [|lra]. intros i Hi.
  apply Hcells; unfold GRID_W, GRID_H; lia.
Qed.

End Queries.

(** ** The shape of the noise *)

Section Noise.
Local Open Scope R_scope.

(** Two runs of the loop of [fractalNoise] whose sine-cosine products agree
    at every frequency [2^k / 2] agree in all four variables. *)
Lemma noise_iter_same (x y x' y' p : R) (n : nat) :
  (forall k, (k < n)%nat ->
     sin (x' * (2 ^ k / 2)) * cos (y' * (2 ^ k / 2))
     = sin (x * (2 ^ k / 2)) * cos (y * (2 ^ k / 2))) ->
  let a := Nat.iter n (noise_step x y p) noise_init in
  let a' := Nat.iter n (noise_step x' y' p) noise_init in
  frequency a = 2 ^ n / 2 /\ frequency a' = 2 ^ n / 2
  /\ amplitude a' = amplitude a /\ maxValue a' = maxValue a
  /\ total a' = total a.
Proof.
  induction n as [|n IH]; intros Hk.
  - cbn. unfold Q2R; cbn. repeat split; lra.
  - cbv zeta. rewrite !Nat.iter_succ.
    destruct IH as (Hf & Hf' & Ha & Hm & Ht); [intros k Hlt; apply Hk; lia|].
    specialize (Hk n ltac:(lia)).
    set (a := Nat.iter n (noise_step x y p) noise_init) in *.
    set (a' := Nat.iter n (noise_step x' y' p) noise_init) in *.
    unfold noise_step.
    cbn [total maxValue amplitude frequency fadd fmul fsin fcos lit
         real_ops real_trig].
    rewrite Hf, Hf', Ha, Hm, Ht.
    replace (Q2R 2) with 2 by (unfold Q2R; cbn; lra).
    rewrite !Rmult_assoc, Hk. cbn [pow]. repeat split; lra.
Qed.

(** When the products are opposite, the totals are mirrored in
    [maxValue]. *)
Lemma noise_iter_opposite (x y x' y' p : R) (n : nat) :
  (forall k, (k < n)%nat ->
     sin (x' * (2 ^ k / 2)) * cos (y' * (2 ^ k / 2))
     = - (sin (x * (2 ^ k / 2)) * cos (y * (2 ^ k / 2)))) ->
  let a := Nat.iter n (noise_step x y p) noise_init in
  let a' := Nat.iter n (noise_step x' y' p) noise_init in
  frequency a = 2 ^ n / 2 /\ frequency a' = 2 ^ n / 2
  /\ amplitude a' = amplitude a /\ maxValue a' = maxValue a
  /\ total a' = maxValue a - total a.
Proof.
  induction n as [|n IH]; intros Hk.
  - cbn. unfold Q2R; cbn. repeat split; lra.
  - cbv zeta. rewrite !Nat.iter_succ.
    destruct IH as (Hf & Hf' & Ha & Hm & Ht); [intros k Hlt; apply Hk; lia|].
    specialize (Hk n ltac:(lia)).
    set (a := Nat.iter n (noise_step x y p) noise_init) in *.
    set (a' := Nat.iter n (noise_step x' y' p) noise_init) in *.
    unfold noise_step.
    cbn [total maxValue amplitude frequency fadd fmul fsin fcos lit
         real_ops real_trig].
    rewrite Hf, Hf', Ha, Hm, Ht.
    replace (Q2R 2) with 2 by (unfold Q2R; cbn; lra).
    replace (Q2R 0.5) with (1 / 2) by (unfold Q2R; cbn; lra).
    rewrite !Rmult_assoc, Hk. cbn [pow]. repeat split; lra.
Qed.

Lemma fractalNoise_iter (x y : R) (octaves : Z) (p : R) :
  fractalNoise x y octaves p
  = total (Nat.iter (Z.to_nat octaves) (noise_step x y p) noise_init)
    / maxValue (Nat.iter (Z.to_nat octaves) (noise_step x y p) noise_init).
Proof.
  unfold fractalNoise, noise_loop. by rewrite for_range_0, for_from_iter.
Qed.

Lemma fractalNoise_odd_x (x y : R) (octaves : Z) (p : R) :
  (1 <= octaves)%Z -> 0 < p ->
  fractalNoise (- x) y octaves p = 1 - fractalNoise x y octaves p.
Proof.
  intros Ho Hp. rewrite !fractalNoise_iter.
  destruct (noise_iter_opposite x y (- x) y p (Z.to_nat octaves))
    as (_ & _ & _ & -> & ->).
  { intros k _. rewrite <- Ropp_mult_distr_l, sin_neg. lra. }
  destruct (Z.to_nat octaves) as [|n] eqn:En; [lia|].
  rewrite Nat.iter_succ.
  destruct (noise_iter_bounds x y p n Hp) as [Ht Ha].
  destruct (noise_step_bounds x y p _ Hp Ht Ha) as (_ & _ & Hm).
  cbv zeta in Hm. field. lra.
Qed.

Lemma fractalNoise_even_y (x y : R) (octaves : Z) (p : R) :
  fractalNoise x (- y) octaves p = fractalNoise x y octaves p.
Proof.
  rewrite !fractalNoise_iter.
  destruct (noise_iter_same x y x (- y) p (Z.to_nat octaves))
    as (_ & _ & _ & -> & ->); [|done].
  intros k _. by rewrite <- Ropp_mult_distr_l, cos_neg.
Qed.

(** X10: the noise is mirrored by a sign change of [x] and unchanged by a
    sign change of [y]: for at least one octave and a positive persistence,
    [fractalNoise(-x, y) = 1 - fractalNoise(x, y)] and
    [fractalNoise(x, -y) = fractalNoise(x, y)]. *)
Theorem fractalNoise_symmetry (x y : R) (octaves : Z) (p : R) :
  (1 <= octaves)%Z -> 0 < p ->
  fractalNoise (- x) y octaves p = 1 - fractalNoise x y octaves p
  /\ fractalNoise x (- y) octaves p = fractalNoise x y octaves p.
Proof.
  intros Ho Hp. split.
  - by apply fractalNoise_odd_x.
  - apply fractalNoise_even_y.
Qed.

(** X11: the noise has the period [4 * PI] in [x] and in [y], for every
    octave count and persistence. *)
Theorem fractalNoise_periodic (x y : R) (octaves : Z) (p : R) :
  fractalNoise (x + 4 * PI) y octaves p = fractalNoise x y octaves p
  /\ fractalNoise x (y + 4 * PI) octaves p = fractalNoise x y octaves p.
Proof.
  assert (Harg : forall (t : R) (k : nat),
            (t + 4 * PI) * (2 ^ k / 2)
            = t * (2 ^ k / 2) + 2 * INR (2 ^ k) * PI).
  { intros t k. rewrite pow_INR.
    replace (INR 2) with 2 by (cbn; lra). field. }
  rewrite !fractalNoise_iter. split.
  - destruct (noise_iter_same x y (x + 4 * PI) y p (Z.to_nat octaves))
      as (_ & _ & _ & -> & ->); [|done].
    intros k _. by rewrite Harg, sin_period.
  - destruct (noise_iter_same x y x (y + 4 * PI) p (Z.to_nat octaves))
      as (_ & _ & _ & -> & ->); [|done].
    intros k _. by rewrite Harg, cos_period.
Qed.

Lemma elevation_first_column (scale : R) (y : Z) : elevation scale 0 y = 0.
Proof.
  unfold elevation. cbn [fsub fmul of_int lit real_ops].
  assert (Hp : 0 < Q2R 0.7) by (unfold Q2R; cbn; lra).
  pose proof (fractalNoise_odd_x (0 * scale) (IZR y * scale) 6 (Q2R 0.7)
                ltac:(lia) Hp) as Hodd.
  replace (- (0 * scale)) with (0 * scale) in Hodd by lra.
  unfold Q2R in *; cbn [Qnum Qden] in *. lra.
Qed.

(** X12: whatever the scale, the column [x = 0] of the grid that
    [generateHeightMap] builds is at elevation 0: every [heightMap[y][0]]
    is 0. *)
Theorem generateHeightMap_first_column (w h : Z) (scale : R)
    (hm0 : list (list R)) (y : Z) :
  (0 < w)%Z -> (0 <= y < h)%Z ->
  (hm ← generateHeightMap w h scale hm0; cell hm y 0) = Some 0.
Proof.
  intros Hw Hy. rewrite generateHeightMap_grid by lia.
  cbn [mbind option_bind]. rewrite grid_of_cell by lia.
  by rewrite elevation_first_column.
Qed.

End Noise.

(** X13: with an octave count of 0 or less the loop of [fractalNoise] does
    not run and the function returns [0.0f / 0.0f]: in single precision,
    NaN, whatever [sinf] and [cosf] are. *)
Theorem fractalNoise_no_octaves_nan (T : TrigOps spec_float)
    (x y : spec_float) (octaves : Z) (persistence : spec_float) :
  (octaves <= 0)%Z ->
  fractalNoise x y octaves persistence = S754_nan.
Proof.
  intros Ho. unfold fractalNoise, noise_loop, for_range.
  by replace (Z.to_nat (octaves - 0)) with O by lia.
Qed.

(** ** The spawn point and the terrain under it *)

Section SpawnEdges.
Context {F : Type} `{FloatOps F}.

Lemma scan_cells_small (w h : Z) :
  (w <= 10)%Z \/ (h <= 10)%Z -> scan_cells w h = [].
Proof.
  intros [Hw|Hh]; unfold scan_cells.
  - rewrite (seqZ_nil 5 (w - 10)) by lia.
    induction (seqZ 5 (h - 10)) as [|y ys IH]; [done|]. by csimpl.
  - by rewrite (seqZ_nil 5 (h - 10)) by lia.
Qed.

Lemma first_flat_inside (hm : list (list F)) (w h y x : Z) :
  first_flat hm w h = Some (y, x) ->
  (5 <= y < h - 5)%Z /\ (5 <= x < w - 5)%Z /\ is_flat hm (y, x) = true.
Proof.
  unfold first_flat. intros Hhead. apply head_Some_elem_of in Hhead.
  apply list_elem_of_filter in Hhead as [Hflat Hin].
  unfold scan_cells in Hin.
  apply list_elem_of_bind in Hin as (y' & Hin & Hy).
  apply list_elem_of_bind in Hin as (x' & Hin & Hx).
  apply list_elem_of_singleton in Hin. injection Hin as -> ->.
  apply elem_of_seqZ in Hy, Hx.
  split; [lia|]. split; [lia|]. by apply Is_true_true.
Qed.

(** X14: the edge cases of [findSpawnPoint].  On an empty [heightMap] the
    read of [heightMap[0]] is undefined.  On a grid with at least one row
    and fewer than 11 columns or fewer than 11 rows the scan has no cell and
    the result is the fallback position [(0, 50, 0)], however flat the grid
    is.  This holds in every arithmetic. *)
Theorem findSpawnPoint_small_grid
    (spacing capsuleHeight capsuleRadius : F) :
  findSpawnPoint [] spacing capsuleHeight capsuleRadius = None
  /\ (forall (hm : list (list F)) (w h : Z),
        rect w h hm -> (1 <= h)%Z -> (w <= 10)%Z \/ (h <= 10)%Z ->
        findSpawnPoint hm spacing capsuleHeight capsuleRadius
        = Some spawn_fallback).
Proof.
  split; [done|]. intros hm w h Hrect Hh Hsmall.
  rewrite (findSpawnPoint_scan hm w h) by done.
  unfold first_flat. by rewrite scan_cells_small.
Qed.

End SpawnEdges.

Section SpawnHeight.
Local Open Scope R_scope.

Lemma getHeight_at_cell (hm : list (list R)) (x y : Z) :
  rect GRID_W GRID_H hm ->
  (0 <= x < GRID_W)%Z -> (0 <= y < GRID_H)%Z ->
  getHeight hm (IZR x * 10) (IZR y * 10) = Some (elev_at hm y x).
Proof.
  intros Hrect Hx Hy. unfold GRID_W, GRID_H in Hx, Hy.
  assert (Hx' : 0 <= IZR x <= 255) by (split; apply IZR_le; lia).
  assert (Hy' : 0 <= IZR y <= 255) by (split; apply IZR_le; lia).
  rewrite getHeight_real by (done || lra). unfold floor_index.
  rewrite (Int_part_eq (IZR x * 10 / 10) x) by lra.
  rewrite (Int_part_eq (IZR y * 10 / 10) y) by lra.
  by rewrite !clamp_id by (unfold GRID_W, GRID_H; lia).
Qed.

(** X15: the capsule that [main] creates starts above the ground.  On a
    256 by 256 grid whose elevations are all below 48, the position [p]
    that [findSpawnPoint(heightMap, 10, 4, 1)] returns is such that the
    bottom [p.y - 4/2] of the capsule of height 4 created there is strictly
    above the terrain height that [getHeight] reports under it; when a flat
    cell was found the gap is exactly [capsuleRadius + 0.1 = 1.1]. *)
Theorem spawn_above_terrain (hm : list (list R)) :
  rect GRID_W GRID_H hm ->
  (forall i j, (0 <= i < GRID_W)%Z -> (0 <= j < GRID_H)%Z ->
               elev_at hm j i < 48) ->
  exists p e,
    findSpawnPoint hm 10 4 1 = Some p
    /\ getHeight hm (vx p) (vz p) = Some e
    /\ e < vy p - 4 / 2
    /\ (first_flat hm GRID_W GRID_H <> None -> vy p - 4 / 2 = e + 11 / 10).
Proof.
  intros Hrect Hlow.
  rewrite (findSpawnPoint_scan hm GRID_W GRID_H) by (done || by unfold GRID_H).
  destruct (first_flat hm GRID_W GRID_H) as [[y x]|] eqn:Hfirst.
  - apply first_flat_inside in Hfirst as (Hy & Hx & _).
    unfold GRID_W, GRID_H in Hx, Hy.
    exists (spawn_at 10 4 1 (elev_at hm y x) y x), (elev_at hm y x).
    split; [done|]. rewrite spawn_at_real. unfold spawn_position, clearance.
    cbn [vx vy vz lit real_ops].
    split; [apply getHeight_at_cell; [done|unfold GRID_W, GRID_H; lia..]|].
    unfold Q2R; cbn [Qnum Qden]. split; [lra|]. intros _. lra.
  - exists spawn_fallback, (elev_at hm 0 0).
    split; [done|]. rewrite spawn_fallback_real. cbn [vx vy vz].
    split.
    + replace 0 with (IZR 0 * 10) at 1 2 by lra.
      by apply getHeight_at_cell.
    + split; [|done]. specialize (Hlow 0%Z 0%Z). unfold GRID_W, GRID_H in Hlow.
      specialize (Hlow ltac:(lia) ltac:(lia)). lra.
Qed.

End SpawnHeight.

(** ** The cursor and the camera angles *)

Section MouseAngles.
Local Open Scope R_scope.

Lemma fclamp_real (v lo hi : R) :
  lo <= hi -> lo <= fclamp v lo hi <= hi.
Proof.
  intros Hlh. unfold fclamp. cbn [flt real_ops]. unfold Rltb.
  destruct (Rlt_dec v lo); [lra|]. destruct (Rlt_dec hi v); lra.
Qed.

(** One event, in real arithmetic. *)
Lemma mouse_callback_real (xpos ypos : R) (st : mouse_state R) :
  let last := if firstMouse st then xpos else lastX st in
  yaw (mouse_callback xpos ypos st) = yaw st + (xpos - last) * (1 / 10)
  /\ -89 <= pitch (mouse_callback xpos ypos st) <= 89
  /\ lastX (mouse_callback xpos ypos st) = xpos
  /\ lastY (mouse_callback xpos ypos st) = ypos
  /\ firstMouse (mouse_callback xpos ypos st) = false.
Proof.
  unfold mouse_callback.
  destruct (firstMouse st);
    cbn [yaw pitch lastX lastY firstMouse fadd fmul lit real_ops
         d_sub d_of_float d_to_float real_cursor];
    (split; [unfold Q2R; cbn [Qnum Qden]; lra|]);
    (split; [|done]);
    (replace (Q2R (-89)) with (-89) by (unfold Q2R; cbn; lra));
    (replace (Q2R 89) with 89 by (unfold Q2R; cbn; lra));
    apply fclamp_real; lra.
Qed.

Lemma mouse_events_seen (events : list (R * R)) :
  forall st : mouse_state R,
    firstMouse st = false ->
    let st' := mouse_events events st in
    yaw st' = yaw st + (List.last (fst <$> events) (lastX st) - lastX st)
                       * (1 / 10)
    /\ lastX st' = List.last (fst <$> events) (lastX st)
    /\ firstMouse st' = false
    /\ (events <> [] -> -89 <= pitch st' <= 89).
Proof.
  induction events as [|[x y] events IH]; intros st Hfirst.
  - cbn. split; [lra|]. by split.
  - cbv zeta. unfold mouse_events. cbn [foldl fst snd].
    fold (mouse_events events (mouse_callback x y st)).
    destruct (mouse_callback_real x y st) as (Hyaw & Hpitch & Hx & _ & Hf).
    rewrite Hfirst in Hyaw. cbv zeta in Hyaw.
    destruct (IH (mouse_callback x y st) Hf) as (IHyaw & IHx & IHf & IHp).
    rewrite IHyaw, IHx, Hyaw, Hx.
    assert (Hlast : List.last (fst <$> (x, y) :: events) (lastX st)
                    = List.last (fst <$> events) x).
    { csimpl. destruct events as [|e events]; [done|]. csimpl.
      clear. revert e. induction events as [|e' events IHe]; intros e;
        [done|]. csimpl. csimpl in IHe. apply IHe. }
    rewrite Hlast. split; [lra|]. split; [done|]. split; [done|].
    intros _. destruct events as [|e events]; [done|].
    by apply IHp.
Qed.

(** X16: from the state before the first event ([firstMouse] set), after
    the cursor events [(x1, y1), ..., (xn, yn)], [n >= 1], the yaw is the
    initial yaw plus a tenth of [xn - x1]: it depends on the first and the
    last cursor position only, and the first event does not turn the
    camera; [lastX] is [xn] and [firstMouse] is cleared. *)
Theorem yaw_follows_cursor (x1 y1 : R) (events : list (R * R))
    (st : mouse_state R) :
  firstMouse st = true ->
  let st' := mouse_events ((x1, y1) :: events) st in
  yaw st' = yaw st + (List.last (fst <$> events) x1 - x1) * (1 / 10)
  /\ lastX st' = List.last (fst <$> events) x1
  /\ firstMouse st' = false.
Proof.
  intros Hfirst. cbv zeta. unfold mouse_events. cbn [foldl fst snd].
  fold (mouse_events events (mouse_callback x1 y1 st)).
  destruct (mouse_callback_real x1 y1 st) as (Hyaw & _ & Hx & _ & Hf).
  rewrite Hfirst in Hyaw. cbv zeta in Hyaw.
  destruct (mouse_events_seen events (mouse_callback x1 y1 st) Hf)
    as (IHyaw & IHx & IHf & _).
  rewrite IHyaw, IHx, Hyaw, Hx. split; [lra|]. by split.
Qed.

(** X17: after at least one cursor event the pitch is within
    [[-89, 89]] degrees, whatever the state before and whatever the cursor
    does: the camera never reaches the vertical. *)
Theorem pitch_stays_clamped (e : R * R) (events : list (R * R))
    (st : mouse_state R) :
  -89 <= pitch (mouse_events (e :: events) st) <= 89.
Proof.
  unfold mouse_events. cbn [foldl].
  fold (mouse_events events (mouse_callback e.1 e.2 st)).
  destruct (mouse_callback_real e.1 e.2 st) as (_ & Hpitch & _ & _ & Hf).
  destruct events as [|e' events]; [done|].
  by apply (mouse_events_seen (e' :: events) _ Hf).
Qed.

End MouseAngles.

(** ** The vertex buffer and the staircase of the nearest-cell query *)

Section BufferSize.
Context {F : Type} `{FloatOps F} `{TrigOps F}.

(** X18: [generateVertices] leaves what the buffer held in place and appends
    exactly three floats per grid point, [3 * w * h] in all (nothing when
    [w] or [h] is not positive). *)
Theorem generateVertices_length (verts : list F) (w h : Z) (scale : F) :
  take (length verts) (generateVertices verts w h scale) = verts
  /\ Z.of_nat (length (generateVertices verts w h scale))
     = (Z.of_nat (length verts) + 3 * (Z.max 0 w * Z.max 0 h))%Z.
Proof.
  rewrite generateVertices_closed. split; [by rewrite take_app_length|].
  rewrite length_app. unfold vertices_of.
  rewrite (length_mjoin_blocks _ (Z.to_nat w * 3)).
  - rewrite length_seqZ. lia.
  - intros y. rewrite (length_mjoin_blocks _ 3) by done.
    by rewrite length_seqZ.
Qed.

End BufferSize.

Section Staircase.
Local Open Scope R_scope.

(** X19: on the 256 by 256 grid the nearest-cell query is constant on each
    cell: at every point [(x, z)] of the square
    [[i*10, (i+1)*10) x [j*10, (j+1)*10)] of an in-bounds cell [(i, j)],
    [getHeight] returns the stored elevation of that cell. *)
Theorem getHeight_within_cell (hm : list (list R)) (i j : Z) (x z : R) :
  rect GRID_W GRID_H hm ->
  (0 <= i < GRID_W)%Z -> (0 <= j < GRID_H)%Z ->
  IZR i * 10 <= x < (IZR i + 1) * 10 ->
  IZR j * 10 <= z < (IZR j + 1) * 10 ->
  getHeight hm x z = cell hm j i /\ is_Some (cell hm j i).
Proof.
  intros Hrect Hi Hj Hx Hz.
  rewrite (rect_cell GRID_W GRID_H hm i j) by done. split; [|done].
  unfold GRID_W, GRID_H in Hi, Hj.
  assert (Hi' : 0 <= IZR i <= 255) by (split; apply IZR_le; lia).
  assert (Hj' : 0 <= IZR j <= 255) by (split; apply IZR_le; lia).
  rewrite getHeight_real by (done || lra). unfold floor_index.
  rewrite (Int_part_eq (x / 10) i) by lra.
  rewrite (Int_part_eq (z / 10) j) by lra.
  by rewrite !clamp_id by (unfold GRID_W, GRID_H; lia).
Qed.

End Staircase.

(** ** These results at concrete inputs *)

Section MoreInstances.
Local Open Scope R_scope.

Lemma update_never_below_low_capsule :
  sea_level (posX low_capsule) (posZ low_capsule)
    <= posY (update 1 sea_level low_capsule)
       - height (update 1 sea_level low_capsule) / 2
  /\ (snaps 1 sea_level low_capsule = true ->
      posY (update 1 sea_level low_capsule)
        - height (update 1 sea_level low_capsule) / 2
      = sea_level (posX low_capsule) (posZ low_capsule)
      /\ velocityY (update 1 sea_level low_capsule) = 0)
  /\ posX (update 1 sea_level low_capsule) = posX low_capsule
  /\ posZ (update 1 sea_level low_capsule) = posZ low_capsule.
Proof. exact (update_never_below 1 sea_level low_capsule). Defined.

Lemma capsule_comes_to_rest_high_capsule :
  0 < 1 / 20
  /\ exists N : nat, forall n : nat, (N <= n)%nat ->
       posY (ticks n (1 / 20) sea_level high_capsule)
       = sea_level (posX high_capsule) (posZ high_capsule)
         + height high_capsule / 2
       /\ velocityY (ticks n (1 / 20) sea_level high_capsule) = 0.
Proof.
  assert (H1 : 0 < 1 / 20) by lra.
  split; [done|].
  exact (capsule_comes_to_rest (1 / 20) sea_level high_capsule H1).
Defined.

Lemma generateIndices_spec_main :
  ((0 <= GRID_W)%Z /\ (1 <= GRID_H <= 2147483647)%Z
   /\ (GRID_W * GRID_H <= 2147483648)%Z)
  /\ exists new,
       generateIndices [] GRID_W GRID_H = Some ([] ++ new)
       /\ Z.of_nat (length new) = (GRID_H - 1)%Z
       /\ Forall (fun strip => Z.of_nat (length strip) = (2 * GRID_W)%Z) new
       /\ Forall (Forall (fun i => 0 <= i < GRID_W * GRID_H)%Z) new.
Proof.
  assert (H1 : (0 <= GRID_W)%Z) by (unfold GRID_W; lia).
  assert (H2 : (1 <= GRID_H <= 2147483647)%Z) by (unfold GRID_H; lia).
  assert (H3 : (GRID_W * GRID_H <= 2147483648)%Z)
    by (unfold GRID_W, GRID_H; lia).
  split; [done|].
  exact (generateIndices_spec [] GRID_W GRID_H H1 H2 H3).
Defined.

Lemma strips_address_vertices_main :
  ((0 <= 1 < GRID_W)%Z /\ (0 <= 2)%Z /\ (2 + 1 < GRID_H)%Z
   /\ (GRID_H <= 2147483647)%Z /\ (GRID_W * GRID_H <= 2147483648)%Z)
  /\ exists strips strip i0 i1,
       generateIndices [] GRID_W GRID_H = Some strips
       /\ strips !! Z.to_nat 2 = Some strip
       /\ strip !! Z.to_nat (2 * 1) = Some i0
       /\ strip !! Z.to_nat (2 * 1 + 1) = Some i1
       /\ vertex (generateVertices [] GRID_W GRID_H (Q2R 0.15)) i0
          = Some (Vec3 (IZR 1 * Q2R 10) (elevation (Q2R 0.15) 1 2)
                       (IZR 2 * Q2R 10))
       /\ vertex (generateVertices [] GRID_W GRID_H (Q2R 0.15)) i1
          = Some (Vec3 (IZR 1 * Q2R 10) (elevation (Q2R 0.15) 1 (2 + 1))
                       (IZR (2 + 1) * Q2R 10)).
Proof.
  assert (H1 : (0 <= 1 < GRID_W)%Z) by (unfold GRID_W; lia).
  assert (H2 : (0 <= 2)%Z) by lia.
  assert (H3 : (2 + 1 < GRID_H)%Z) by (unfold GRID_H; lia).
  assert (H4 : (GRID_H <= 2147483647)%Z) by (unfold GRID_H; lia).
  assert (H5 : (GRID_W * GRID_H <= 2147483648)%Z)
    by (unfold GRID_W, GRID_H; lia).
  split; [done|].
  exact (strips_address_vertices GRID_W GRID_H (Q2R 0.15) 1 2 H1 H2 H3 H4 H5).
Defined.

Lemma flatten_strips_slices_two :
  (Z.of_nat (length (mjoin [[0; 2; 1; 3]; [2; 4; 3; 5]]%Z)) < 4294967296)%Z
  /\ let '(allIndices, stripOffsets, _) :=
       flatten_strips [[0; 2; 1; 3]; [2; 4; 3; 5]]%Z in
     allIndices = mjoin [[0; 2; 1; 3]; [2; 4; 3; 5]]%Z
     /\ length stripOffsets = length [[0; 2; 1; 3]; [2; 4; 3; 5]]%Z
     /\ forall (i : nat) (strip : list Z),
          [[0; 2; 1; 3]; [2; 4; 3; 5]]%Z !! i = Some strip ->
          exists offset,
            stripOffsets !! i = Some offset
            /\ take (length strip) (drop (Z.to_nat offset) allIndices) = strip.
Proof.
  assert (H1 : (Z.of_nat (length (mjoin [[0; 2; 1; 3]; [2; 4; 3; 5]]%Z))
                < 4294967296)%Z) by (simpl; lia).
  split; [done|].
  exact (flatten_strips_slices [[0; 2; 1; 3]; [2; 4; 3; 5]]%Z H1).
Defined.

Lemma move_update_commute_low_capsule :
  posX (update 1 sea_level (moveHorizontal 3 4 low_capsule))
    = posX (moveHorizontal 3 4 (update 1 sea_level low_capsule))
  /\ posZ (update 1 sea_level (moveHorizontal 3 4 low_capsule))
      = posZ (moveHorizontal 3 4 (update 1 sea_level low_capsule))
  /\ update 1 sea_level (moveHorizontal 3 4 low_capsule)
     = moveHorizontal 3 4 (update 1 sea_level low_capsule).
Proof.
  destruct (move_update_commute 1 3 4 sea_level low_capsule)
    as (Hx & Hz & Hall).
  split; [done|]. split; [done|]. apply Hall. reflexivity.
Defined.

Lemma getHeight_clamps_level_grid :
  (rect GRID_W GRID_H (flat_grid 0 GRID_W GRID_H)
   /\ -2147483649 < -5 / 10 < 2147483648
   /\ -2147483649 < 3000 / 10 < 2147483648)
  /\ getHeight (flat_grid 0 GRID_W GRID_H) (-5) 3000
     = getHeight (flat_grid 0 GRID_W GRID_H)
                 (extent_clamp (-5)) (extent_clamp 3000)
  /\ is_Some (getHeight (flat_grid 0 GRID_W GRID_H) (-5) 3000).
Proof.
  assert (H1 : rect GRID_W GRID_H (flat_grid (0 : R) GRID_W GRID_H))
    by (apply flat_grid_rect; unfold GRID_W, GRID_H; lia).
  assert (H2 : -2147483649 < -5 / 10 < 2147483648) by lra.
  assert (H3 : -2147483649 < 3000 / 10 < 2147483648) by lra.
  split; [done|].
  exact (getHeight_clamps (flat_grid 0 GRID_W GRID_H) (-5) 3000 H1 H2 H3).
Defined.

Lemma getInterpolatedHeight_clamps_level_grid :
  (rect GRID_W GRID_H (flat_grid 0 GRID_W GRID_H)
   /\ -2147483649 < -15 / 10 < 2147483647
   /\ -2147483649 < 3000 / 10 < 2147483647
   /\ (-15 <= -10 \/ 0 <= -15) /\ (3000 <= -10 \/ 0 <= 3000))
  /\ getInterpolatedHeight (flat_grid 0 GRID_W GRID_H) (-15) 3000
     = getInterpolatedHeight (flat_grid 0 GRID_W GRID_H)
                             (extent_clamp (-15)) (extent_clamp 3000)
  /\ is_Some (getInterpolatedHeight (flat_grid 0 GRID_W GRID_H) (-15) 3000).
Proof.
  assert (H1 : rect GRID_W GRID_H (flat_grid (0 : R) GRID_W GRID_H))
    by (apply flat_grid_rect; unfold GRID_W, GRID_H; lia).
  assert (H2 : -2147483649 < -15 / 10 < 2147483647) by lra.
  assert (H3 : -2147483649 < 3000 / 10 < 2147483647) by lra.
  assert (H4 : -15 <= -10 \/ 0 <= -15) by (left; lra).
  assert (H5 : 3000 <= -10 \/ 0 <= 3000) by (right; lra).
  split; [done|].
  exact (getInterpolatedHeight_clamps (flat_grid 0 GRID_W GRID_H) (-15) 3000
           H1 H2 H3 H4 H5).
Defined.

Lemma getInterpolatedHeight_between_main :
  (rect GRID_W GRID_H (grid_of (Q2R 0.15) GRID_W GRID_H)
   /\ (forall i j, (0 <= i < GRID_W)%Z -> (0 <= j < GRID_H)%Z ->
         -25 <= elev_at (grid_of (Q2R 0.15) GRID_W GRID_H) j i <= 25)
   /\ -2147483649 < 123 / 10 < 2147483647
   /\ -2147483649 < 45 / 10 < 2147483647
   /\ (123 <= -10 \/ 0 <= 123) /\ (45 <= -10 \/ 0 <= 45))
  /\ exists v,
       getInterpolatedHeight (grid_of (Q2R 0.15) GRID_W GRID_H) 123 45 = Some v
       /\ -25 <= v <= 25.
Proof.
  assert (H1 : rect GRID_W GRID_H (grid_of (Q2R 0.15) GRID_W GRID_H))
    by (apply grid_of_rect; unfold GRID_W, GRID_H; lia).
  assert (H2 : forall i j, (0 <= i < GRID_W)%Z -> (0 <= j < GRID_H)%Z ->
            -25 <= elev_at (grid_of (Q2R 0.15) GRID_W GRID_H) j i <= 25).
  { intros i j Hi Hj. unfold elev_at. rewrite grid_of_cell by done.
    apply elevation_range. }
  assert (H3 : -2147483649 < 123 / 10 < 2147483647) by lra.
  assert (H4 : -2147483649 < 45 / 10 < 2147483647) by lra.
  assert (H5 : 123 <= -10 \/ 0 <= 123) by (right; lra).
  assert (H6 : 45 <= -10 \/ 0 <= 45) by (right; lra).
  split; [done|].
  exact (getInterpolatedHeight_between (grid_of (Q2R 0.15) GRID_W GRID_H)
           (-25) 25 123 45 H1 H2 H3 H4 H5 H6).
Defined.

Lemma fractalNoise_symmetry_default :
  ((1 <= 6)%Z /\ 0 < 7 / 10)
  /\ fractalNoise (- 3) 2 6 (7 / 10) = 1 - fractalNoise 3 2 6 (7 / 10)
  /\ fractalNoise 3 (- 2) 6 (7 / 10) = fractalNoise 3 2 6 (7 / 10).
Proof.
  assert (H1 : (1 <= 6)%Z) by lia.
  assert (H2 : 0 < 7 / 10) by lra.
  split; [done|].
  exact (fractalNoise_symmetry 3 2 6 (7 / 10) H1 H2).
Defined.

Lemma generateHeightMap_first_column_main :
  ((0 < GRID_W)%Z /\ (0 <= 7 < GRID_H)%Z)
  /\ (hm ← generateHeightMap GRID_W GRID_H (Q2R 0.15) []; cell hm 7 0)
     = Some 0.
Proof.
  assert (H1 : (0 < GRID_W)%Z) by (unfold GRID_W; lia).
  assert (H2 : (0 <= 7 < GRID_H)%Z) by (unfold GRID_H; lia).
  split; [done|].
  exact (generateHeightMap_first_column GRID_W GRID_H (Q2R 0.15) [] 7 H1 H2).
Defined.

Lemma findSpawnPoint_small_grid_level :
  findSpawnPoint ([] : list (list R)) 10 4 1 = None
  /\ (rect 10 10 (flat_grid 0 10 10) /\ (1 <= 10)%Z
      /\ ((10 <= 10)%Z \/ (10 <= 10)%Z))
  /\ findSpawnPoint (flat_grid 0 10 10) 10 4 1 = Some spawn_fallback.
Proof.
  destruct (findSpawnPoint_small_grid (10 : R) 4 1) as [Hnil Hsmall].
  assert (H1 : rect 10 10 (flat_grid (0 : R) 10 10))
    by (apply flat_grid_rect; lia).
  assert (H2 : (1 <= 10)%Z) by lia.
  assert (H3 : (10 <= 10)%Z \/ (10 <= 10)%Z) by (left; lia).
  split; [done|]. split; [done|].
  exact (Hsmall (flat_grid 0 10 10) 10%Z 10%Z H1 H2 H3).
Defined.

Lemma spawn_above_terrain_main :
  (rect GRID_W GRID_H (grid_of (Q2R 0.15) GRID_W GRID_H)
   /\ (forall i j, (0 <= i < GRID_W)%Z -> (0 <= j < GRID_H)%Z ->
         elev_at (grid_of (Q2R 0.15) GRID_W GRID_H) j i < 48))
  /\ exists p e,
       findSpawnPoint (grid_of (Q2R 0.15) GRID_W GRID_H) 10 4 1 = Some p
       /\ getHeight (grid_of (Q2R 0.15) GRID_W GRID_H) (vx p) (vz p) = Some e
       /\ e < vy p - 4 / 2
       /\ (first_flat (grid_of (Q2R 0.15) GRID_W GRID_H) GRID_W GRID_H <> None
           -> vy p - 4 / 2 = e + 11 / 10).
Proof.
  assert (H1 : rect GRID_W GRID_H (grid_of (Q2R 0.15) GRID_W GRID_H))
    by (apply grid_of_rect; unfold GRID_W, GRID_H; lia).
  assert (H2 : forall i j, (0 <= i < GRID_W)%Z -> (0 <= j < GRID_H)%Z ->
            elev_at (grid_of (Q2R 0.15) GRID_W GRID_H) j i < 48).
  { intros i j Hi Hj. unfold elev_at. rewrite grid_of_cell by done.
    pose proof (elevation_range (Q2R 0.15) i j). cbn [from_option].
    unfold Datatypes.id. lra. }
  split; [done|].
  exact (spawn_above_terrain (grid_of (Q2R 0.15) GRID_W GRID_H) H1 H2).
Defined.

Lemma yaw_follows_cursor_init :
  firstMouse mouse_init = true
  /\ let st' := mouse_events [(800, 450); (810, 440); (790, 460)] mouse_init in
     yaw st' = yaw mouse_init
               + (List.last (fst <$> [(810, 440); (790, 460)]) 800 - 800)
                 * (1 / 10)
     /\ lastX st' = List.last (fst <$> [(810, 440); (790, 460)]) 800
     /\ firstMouse st' = false.
Proof.
  assert (H1 : firstMouse mouse_init = true) by reflexivity.
  split; [done|].
  exact (yaw_follows_cursor 800 450 [(810, 440); (790, 460)] mouse_init H1).
Defined.

Lemma getHeight_within_cell_level_grid :
  (rect GRID_W GRID_H (flat_grid 0 GRID_W GRID_H)
   /\ (0 <= 3 < GRID_W)%Z /\ (0 <= 2 < GRID_H)%Z
   /\ IZR 3 * 10 <= 37 < (IZR 3 + 1) * 10
   /\ IZR 2 * 10 <= 20 < (IZR 2 + 1) * 10)
  /\ getHeight (flat_grid 0 GRID_W GRID_H) 37 20
     = cell (flat_grid 0 GRID_W GRID_H) 2 3
  /\ is_Some (cell (flat_grid (0 : R) GRID_W GRID_H) 2 3).
Proof.
  assert (H1 : rect GRID_W GRID_H (flat_grid (0 : R) GRID_W GRID_H))
    by (apply flat_grid_rect; unfold GRID_W, GRID_H; lia).
  assert (H2 : (0 <= 3 < GRID_W)%Z) by (unfold GRID_W; lia).
  assert (H3 : (0 <= 2 < GRID_H)%Z) by (unfold GRID_H; lia).
  assert (H4 : IZR 3 * 10 <= 37 < (IZR 3 + 1) * 10) by lra.
  assert (H5 : IZR 2 * 10 <= 20 < (IZR 2 + 1) * 10) by lra.
  split; [done|].
  exact (getHeight_within_cell (flat_grid 0 GRID_W GRID_H) 3 2 37 20
           H1 H2 H3 H4 H5).
Defined.

End MoreInstances.

Lemma fractalNoise_no_octaves_nan_zero :
  (0 <= 0)%Z
  /\ @fractalNoise spec_float binary32_ops
       (Build_TrigOps spec_float (fun x => x) (fun x => x))
       (lit 1) (lit 2) 0 (lit 0.7)
     = S754_nan.
Proof.
  assert (H1 : (0 <= 0)%Z) by lia.
  split; [done|].
  exact (fractalNoise_no_octaves_nan
           (Build_TrigOps spec_float (fun x => x) (fun x => x))
           (lit 1) (lit 2) 0 (lit 0.7) H1).
Defined.
